(** * webscrapping.py: the CVE feed scraper, embedded and verified

    The script polls an RSS feed of vulnerability disclosures, derives a
    CVE identifier from each entry title, skips entries already stored in a
    SQLite table, scrapes the detail page of the others and inserts one row
    per entry.

    The embedding follows the script function by function.  What the script
    borrows from libraries is modelled next to it:
    - Python [str] values are lists of characters, the [str] methods and the
      [re] engine are functions on them;
    - BeautifulSoup documents are trees of tags and text;
    - the SQLite table is a list of rows behind a primary key;
    - the network, the parsers and the storage medium are oracles of a
      [world]: what a GET returns, what a parser makes of a body (or that it
      rejects it), and whether a database call goes wrong. *)

From Stdlib Require Import String Ascii Bool Arith Lia List.
Import ListNotations.

Set Implicit Arguments.
#[local] Set Warnings "-register-all".

(** ** Python strings *)

(** A Python [str] restricted to the code points 0..255. *)
Definition str := list ascii.

(** A string literal of the script. *)
Definition py (s : string) : str := list_ascii_of_string s.

Module Str.

Definition ord (c : ascii) : nat := nat_of_ascii c.

Definition between (lo hi : nat) (c : ascii) : bool :=
  (lo <=? ord c) && (ord c <=? hi).

(** [str.isspace] on one character, which is also what [str.strip()]
    removes and what [\s] matches: TAB..CR, FS..US, space, NEL, NBSP. *)
Definition isspace (c : ascii) : bool :=
  between 9 13 c || between 28 32 c || (ord c =? 133) || (ord c =? 160).

(** [str.isdecimal], the class [\d]. *)
Definition isdecimal (c : ascii) : bool := between 48 57 c.

(** The class [\w]: alphanumeric characters and the underscore. *)
Definition isword (c : ascii) : bool :=
  between 48 57 c || between 65 90 c || (ord c =? 95) || between 97 122 c
  || (ord c =? 170) || between 178 179 c || (ord c =? 181)
  || between 185 186 c || between 188 190 c || between 192 214 c
  || between 216 246 c || between 248 255 c.

Fixpoint lstrip (s : str) : str :=
  match s with
  | c :: s' => if isspace c then lstrip s' else s
  | [] => []
  end.

Definition rstrip (s : str) : str := rev (lstrip (rev s)).

(** [s.strip()] *)
Definition strip (s : str) : str := rstrip (lstrip s).

(** [s.replace(old, new)] for one-character [old] and [new]. *)
Definition replace (old new : ascii) (s : str) : str :=
  map (fun c => if Ascii.eqb c old then new else c) s.

(** [s == t] *)
Fixpoint eqb (s t : str) : bool :=
  match s, t with
  | [], [] => true
  | a :: s', b :: t' => Ascii.eqb a b && eqb s' t'
  | _, _ => false
  end.

Fixpoint startswith (p s : str) : bool :=
  match p, s with
  | [], _ => true
  | a :: p', b :: s' => Ascii.eqb a b && startswith p' s'
  | _ :: _, [] => false
  end.

(** [s.find(sub)]: the lowest index where [sub] occurs. *)
Fixpoint find (sub s : str) : option nat :=
  if startswith sub s then Some 0
  else match s with
       | [] => None
       | _ :: s' => option_map S (find sub s')
       end.

(** [sub in s] *)
Definition contains (sub s : str) : bool :=
  match find sub s with Some _ => true | None => false end.

(** [s.split(sep, 1)] for a non-empty [sep]. *)
Definition split1 (sep s : str) : list str :=
  match find sep s with
  | Some i => [firstn i s; skipn (i + length sep) s]
  | None => [s]
  end.

End Str.

(** ** The [re] engine

    The fragment of regular expressions the script's two patterns are
    written in: literal characters, a character class under a greedy
    counted repetition, concatenation, a greedy optional part and
    capturing groups. *)
Module Re.

Inductive regex : Type :=
| Eps
| Chr (c : ascii)
| Cls (p : ascii -> bool) (lo : nat) (hi : option nat)
| Cat (r1 r2 : regex)
| Opt (r : regex)
| Grp (i : nat) (r : regex).

(** The text a match consumed and the groups it captured. *)
Definition captures := list (nat * str).
Definition candidate := (str * captures)%type.

(** Length of the longest prefix of [s] inside the class [p]. *)
Fixpoint span (p : ascii -> bool) (s : str) : nat :=
  match s with
  | c :: s' => if p c then S (span p s') else 0
  | [] => 0
  end.

(** The prefixes a counted class can consume, longest first. *)
Definition cls_matches (p : ascii -> bool) (lo : nat) (hi : option nat)
    (s : str) : list candidate :=
  let n := match hi with
           | Some h => Nat.min h (span p s)
           | None => span p s
           end in
  map (fun k => (firstn k s, [])) (rev (seq lo (S n - lo))).

Definition glue (c1 : candidate) (c2 : candidate) : candidate :=
  (fst c1 ++ fst c2, snd c1 ++ snd c2).

(** Every way [r] matches a prefix of [s], in the order the backtracking
    engine tries them. *)
Fixpoint matches (r : regex) (s : str) : list candidate :=
  match r with
  | Eps => [([], [])]
  | Chr c =>
      match s with
      | c' :: _ => if Ascii.eqb c' c then [([c], [])] else []
      | [] => []
      end
  | Cls p lo hi => cls_matches p lo hi s
  | Cat r1 r2 =>
      flat_map (fun c1 => map (glue c1) (matches r2 (skipn (length (fst c1)) s)))
               (matches r1 s)
  | Opt r' => matches r' s ++ [([], [])]
  | Grp i r' => map (fun c => (fst c, (i, fst c) :: snd c)) (matches r' s)
  end.

(** [re.search(r, s)]: the first candidate at the first position that has
    one. *)
Fixpoint search (r : regex) (s : str) : option candidate :=
  match matches r s with
  | c :: _ => Some c
  | [] => match s with
          | [] => None
          | _ :: s' => search r s'
          end
  end.

(** [m.group()] *)
Definition group0 (m : candidate) : str := fst m.

(** [m.group(i)]: [None] for a group that took no part in the match. *)
Fixpoint lookup (i : nat) (g : captures) : option str :=
  match g with
  | [] => None
  | (j, t) :: g' => if Nat.eqb i j then Some t else lookup i g'
  end.

Definition group (i : nat) (m : candidate) : option str := lookup i (snd m).

(** A literal string as a pattern. *)
Fixpoint lit (l : str) : regex :=
  match l with
  | [] => Eps
  | c :: l' => Cat (Chr c) (lit l')
  end.

Definition star p := Cls p 0 None.
Definition plus p := Cls p 1 None.

(** The language of a pattern, with the groups a word of it captures:
    what it means for a text to match, whatever the engine does. *)
Inductive denotes : regex -> str -> captures -> Prop :=
| D_eps : denotes Eps [] []
| D_chr c : denotes (Chr c) [c] []
| D_cls p lo hi m :
    Forall (fun c => p c = true) m ->
    lo <= length m ->
    match hi with Some h => length m <= h | None => True end ->
    denotes (Cls p lo hi) m []
| D_cat r1 r2 m1 m2 g1 g2 :
    denotes r1 m1 g1 -> denotes r2 m2 g2 ->
    denotes (Cat r1 r2) (m1 ++ m2) (g1 ++ g2)
| D_opt_some r m g : denotes r m g -> denotes (Opt r) m g
| D_opt_none r : denotes (Opt r) [] []
| D_grp i r m g : denotes r m g -> denotes (Grp i r) m ((i, m) :: g).

(** [s] does not go on with a character of the class [p]. *)
Definition stops (p : ascii -> bool) (s : str) : Prop :=
  match s with
  | [] => True
  | c :: _ => p c = false
  end.

End Re.

(** [r'CVE-\d{4}-\d{4,}'] *)
Definition cve_pattern : Re.regex :=
  Re.Cat (Re.lit (py "CVE-"))
    (Re.Cat (Re.Cls Str.isdecimal 4 (Some 4))
       (Re.Cat (Re.Chr "-") (Re.Cls Str.isdecimal 4 None))).

(** [r'Severity:\s*(\d+(\.\d+)?)\s*\|\s*(\w+)'] *)
Definition severity_pattern : Re.regex :=
  Re.Cat (Re.lit (py "Severity:"))
    (Re.Cat (Re.star Str.isspace)
       (Re.Cat (Re.Grp 1
                  (Re.Cat (Re.plus Str.isdecimal)
                     (Re.Opt (Re.Grp 2 (Re.Cat (Re.Chr ".") (Re.plus Str.isdecimal))))))
          (Re.Cat (Re.star Str.isspace)
             (Re.Cat (Re.Chr "|")
                (Re.Cat (Re.star Str.isspace)
                   (Re.Grp 3 (Re.plus Str.isword))))))).

(** ** BeautifulSoup documents *)
Module Soup.

(** A parsed document: tags, the text between them, and comments (bs4's
    [Comment], a string that [.string] returns and [.text] leaves out). *)
Inductive node : Type :=
| Text (s : str)
| Comment (s : str)
| Tag (name : str) (children : list node).

(** A tag as the script holds it: the node, and the siblings that follow
    it under its parent (what [find_next_sibling] walks). *)
Record element : Type := { node_of : node; following : list node }.

(** [tag.text]: the text of all descendants, in document order. *)
Fixpoint text (n : node) : str :=
  match n with
  | Text s => s
  | Comment _ => []
  | Tag _ cs =>
      (fix go (l : list node) : str :=
         match l with
         | [] => []
         | c :: l' => text c ++ go l'
         end) cs
  end.

(** [tag.string]: the text of a tag whose content is one string, possibly
    wrapped in single-child tags; [None] otherwise. *)
Fixpoint string (n : node) : option str :=
  match n with
  | Text s => Some s
  | Comment s => Some s
  | Tag _ [c] => string c
  | Tag _ _ => None
  end.

(** A node and everything below it, in document order. *)
Fixpoint walk (n : node) (after : list node) : list element :=
  {| node_of := n; following := after |} ::
  match n with
  | Text _ | Comment _ => []
  | Tag _ cs =>
      (fix go (l : list node) : list element :=
         match l with
         | [] => []
         | c :: l' => walk c l' ++ go l'
         end) cs
  end.

Fixpoint walk_all (l : list node) : list element :=
  match l with
  | [] => []
  | c :: l' => walk c l' ++ walk_all l'
  end.

Definition children (e : element) : list node :=
  match node_of e with
  | Tag _ cs => cs
  | Text _ | Comment _ => []
  end.

Definition named (name : str) (n : node) : bool :=
  match n with
  | Tag m _ => Str.eqb m name
  | Text _ | Comment _ => false
  end.

Definition has_string (wanted : option str) (n : node) : bool :=
  match wanted with
  | None => true
  | Some t => match string n with
              | Some u => Str.eqb u t
              | None => false
              end
  end.

(** [root.find_all(name, string=wanted)] over the descendants of [root]. *)
Definition find_all (name : str) (wanted : option str) (root : list node)
    : list element :=
  filter (fun e => named name (node_of e) && has_string wanted (node_of e))
         (walk_all root).

(** [root.find(name, string=wanted)]: the first result of [find_all], or
    [None]. *)
Definition find (name : str) (wanted : option str) (root : list node)
    : option element :=
  hd_error (find_all name wanted root).

(** [tag.find_next_sibling(name)] *)
Fixpoint next_named (name : str) (l : list node) : option element :=
  match l with
  | [] => None
  | n :: l' =>
      if named name n then Some {| node_of := n; following := l' |}
      else next_named name l'
  end.

Definition find_next_sibling (name : str) (e : element) : option element :=
  next_named name (following e).

End Soup.

(** ** The table [ca_cve] *)

(** One row of [ca_cve]; also the dictionary [cve_details]. *)
Record cve : Type := {
  cve_number : str;
  cve_name : str;
  cve_description : str;
  cve_pubdate : str;
  cve_link : str;
  cve_severity : option str
}.

Module Sqlite.

Inductive error : Type :=
| IntegrityError      (* UNIQUE constraint failed: ca_cve.cve_number *)
| OperationalError.   (* no such table, disk I/O error, database is locked *)

(** The database file: [None] until the table [ca_cve] exists. *)
Definition database := option (list cve).

Definition has_key (k : str) (t : list cve) : bool :=
  existsb (fun r => Str.eqb (cve_number r) k) t.

(** [CREATE TABLE IF NOT EXISTS ca_cve (cve_number TEXT PRIMARY KEY, ...)] *)
Definition create_table (d : database) : database :=
  match d with
  | None => Some []
  | Some t => Some t
  end.

(** [INSERT INTO ca_cve (...) VALUES (...)] *)
Definition insert (r : cve) (d : database) : database * option error :=
  match d with
  | None => (None, Some OperationalError)
  | Some t =>
      if has_key (cve_number r) t then (Some t, Some IntegrityError)
      else (Some (t ++ [r]), None)
  end.

(** [SELECT 1 FROM ca_cve WHERE cve_number = ?] followed by
    [fetchone() is not None] *)
Definition select_one (k : str) (d : database) : error + bool :=
  match d with
  | None => inl OperationalError
  | Some t => inr (has_key k t)
  end.

Definition rows (d : database) : list cve :=
  match d with
  | None => []
  | Some t => t
  end.

End Sqlite.

(** ** The world around the script *)

(** What can go wrong in one database call. *)
Inductive fault : Type :=
| NoFault
| ConnectFails     (* [sqlite3.connect] raises *)
| ExecuteFails     (* the statement raises: disk I/O error, database is locked *)
| CommitFails.     (* the commit on leaving [with conn:] raises *)

(** A [requests.Response]: whether [raise_for_status] raises for its status
    code, and the body. *)
Record response : Type := { error_status : bool; content : str }.

Record world : Type := {
  (** the answer to the n-th GET of the run; [None] when [requests.get]
      itself raises *)
  net : nat -> str -> option response;
  (** what goes wrong in the n-th database call *)
  disk : nat -> fault;
  (** [BeautifulSoup(content, 'lxml-xml')]; [None] when the constructor
      raises (the parser rejects the markup) *)
  parse_xml : str -> option (list Soup.node);
  (** [BeautifulSoup(content, 'html.parser')]; [None] when it raises *)
  parse_html : str -> option (list Soup.node);
  (** [html.unescape] *)
  unescape : str -> str
}.

(** The lines the script prints. *)
Inductive line : Type :=
| Error_connecting                    (* Error connecting to SQLite database *)
| Table_ready                         (* CVE table is ready. *)
| Error_creating_table
| Inserted (number : str)             (* Inserted CVE: ... *)
| Error_inserting (e : Sqlite.error)  (* Error inserting CVE into SQLite database *)
| Error_checking (e : Sqlite.error)   (* Error checking CVE existence *)
| Skipping (number : str)             (* ... already exists. Skipping. *)
| Processed (number : str)            (* Processed CVE: ... *)
| Error_fetching_feed                 (* Error fetching CVE feed *)
| Unexpected_error.                   (* Unexpected error *)

Record state : Type := {
  db : Sqlite.database;
  db_calls : nat;          (* database calls made so far *)
  fetched : list str;      (* URLs requested so far, oldest first *)
  stdout : list line       (* lines printed so far, oldest first *)
}.

(** ** Exceptions and state *)

Inductive exn : Type :=
| RequestException   (* requests.exceptions.RequestException and subclasses *)
| AttributeError
| IndexError
| ParserRejectedMarkup.   (* what [BeautifulSoup(...)] raises on markup it cannot take *)

Inductive outcome (A : Type) : Type :=
| Ok (a : A)
| Raise (e : exn).
Arguments Raise {A} e.

Definition M (A : Type) : Type := state -> outcome A * state.

Definition ret {A} (a : A) : M A := fun s => (Ok a, s).

Definition raise {A} (e : exn) : M A := fun s => (Raise e, s).

Definition bind {A B} (c : M A) (k : A -> M B) : M B :=
  fun s =>
    match c s with
    | (Ok a, s') => k a s'
    | (Raise e, s') => (Raise e, s')
    end.

Notation "x <- c ;; k" := (bind c (fun x => k))
  (at level 61, c at next level, right associativity).
Notation "c ;;; k" := (bind c (fun _ => k))
  (at level 61, right associativity).

(** The state once [l] is printed, and once [u] is requested. *)
Definition printed (l : line) (s : state) : state :=
  {| db := db s; db_calls := db_calls s;
     fetched := fetched s; stdout := stdout s ++ [l] |}.

Definition requested (u : str) (s : state) : state :=
  {| db := db s; db_calls := db_calls s;
     fetched := fetched s ++ [u]; stdout := stdout s |}.

Definition print (l : line) : M unit := fun s => (Ok tt, printed l s).

(** [for x in l: body(x)] *)
Fixpoint for_each {A} (body : A -> M unit) (l : list A) : M unit :=
  match l with
  | [] => ret tt
  | x :: l' => body x ;;; for_each body l'
  end.

(** [tag.text] on the result of a [find]: [None] has no attribute [text]. *)
Definition text_of (t : option Soup.element) : M str :=
  match t with
  | Some e => ret (Soup.text (Soup.node_of e))
  | None => raise AttributeError
  end.

(** [BeautifulSoup(content, features)], for the parser [parse] that
    [features] names. *)
Definition BeautifulSoup (parse : str -> option (list Soup.node)) (content : str)
    : M (list Soup.node) :=
  match parse content with
  | Some soup => ret soup
  | None => raise ParserRejectedMarkup
  end.

(** [l[i]] *)
Definition getitem (l : list str) (i : nat) : M str :=
  match nth_error l i with
  | Some x => ret x
  | None => raise IndexError
  end.

(** ** The script *)

(** An open connection: [failing] when the statement run on it will raise
    [sqlite3.Error], [commit_failing] when the commit of its transaction
    will. *)
Record connection : Type := { failing : bool; commit_failing : bool }.

(** The state one database call later. *)
Definition ticked (s : state) : state :=
  {| db := db s; db_calls := S (db_calls s);
     fetched := fetched s; stdout := stdout s |}.

Definition tick : M unit := fun s => (Ok tt, ticked s).

Definition get_db_connection (w : world) : M (option connection) :=
  fun s =>
    match disk w (db_calls s) with
    | ConnectFails => (tick ;;; print Error_connecting ;;; ret None) s
    | ExecuteFails =>
        (tick ;;; ret (Some {| failing := true; commit_failing := false |})) s
    | CommitFails =>
        (tick ;;; ret (Some {| failing := false; commit_failing := true |})) s
    | NoFault =>
        (tick ;;; ret (Some {| failing := false; commit_failing := false |})) s
    end.

(** [conn.execute('CREATE TABLE IF NOT EXISTS ...')] inside [with conn:];
    the statement opens no transaction, so that nothing is left to commit. *)
Definition execute_create (c : connection) : M (option Sqlite.error) :=
  fun s =>
    if failing c then (Ok (Some Sqlite.OperationalError), s)
    else (Ok None, {| db := Sqlite.create_table (db s); db_calls := db_calls s;
                      fetched := fetched s; stdout := stdout s |}).

(** The table as it stands: what an open transaction rolls back to. *)
Definition snapshot : M Sqlite.database := fun s => (Ok (db s), s).

(** Leaving [with conn:] by [return True]: the commit of the transaction
    the [INSERT] opened.  When the commit raises, the connection is closed
    with the transaction open and the table is back to what it was. *)
Definition commit (c : connection) (before : Sqlite.database)
    : M (option Sqlite.error) :=
  fun s =>
    if commit_failing c
    then (Ok (Some Sqlite.OperationalError),
          {| db := before; db_calls := db_calls s;
             fetched := fetched s; stdout := stdout s |})
    else (Ok None, s).

(** [conn.execute('INSERT INTO ca_cve ...', ...)] inside [with conn:] *)
Definition execute_insert (c : connection) (r : cve) : M (option Sqlite.error) :=
  fun s =>
    if failing c then (Ok (Some Sqlite.OperationalError), s)
    else (Ok (snd (Sqlite.insert r (db s))),
          {| db := fst (Sqlite.insert r (db s)); db_calls := db_calls s;
             fetched := fetched s; stdout := stdout s |}).

(** [cursor.execute('SELECT 1 ...'); cursor.fetchone() is not None] *)
Definition execute_select (c : connection) (k : str) : M (Sqlite.error + bool) :=
  fun s =>
    if failing c then (Ok (inl Sqlite.OperationalError), s)
    else (Ok (Sqlite.select_one k (db s)), s).

Definition create_cve_table (w : world) : M bool :=
  conn <- get_db_connection w ;;
  match conn with
  | None => ret false
  | Some c =>
      r <- execute_create c ;;
      match r with
      | None => print Table_ready ;;; ret true
      | Some _ => print Error_creating_table ;;; ret false
      end
  end.

Definition insert_cve_to_db (w : world) (cve_details : cve) : M bool :=
  conn <- get_db_connection w ;;
  match conn with
  | None => ret false
  | Some c =>
      before <- snapshot ;;
      r <- execute_insert c cve_details ;;
      match r with
      | None =>
          print (Inserted (cve_number cve_details)) ;;;
          r' <- commit c before ;;
          match r' with
          | None => ret true
          | Some e => print (Error_inserting e) ;;; ret false
          end
      | Some e => print (Error_inserting e) ;;; ret false
      end
  end.

Definition cve_exists (w : world) (number : str) : M bool :=
  conn <- get_db_connection w ;;
  match conn with
  | None => ret false
  | Some c =>
      r <- execute_select c number ;;
      match r with
      | inr found => ret found
      | inl e => print (Error_checking e) ;;; ret false
      end
  end.

(** [requests.get(url)] *)
Definition requests_get (w : world) (url : str) : M response :=
  fun s =>
    match net w (length (fetched s)) url with
    | Some r => (Ok r, requested url s)
    | None => (Raise RequestException, requested url s)
    end.

(** [response.raise_for_status()] *)
Definition raise_for_status (r : response) : M unit :=
  if error_status r then raise RequestException else ret tt.

Definition url : str := py "https://cvefeed.io/rssfeed/severity/high.xml".

(** Lines 109-110: the identifier of an entry. *)
Definition cve_number_of (title : str) : str :=
  match Re.search cve_pattern title with
  | Some m => Re.group0 m
  | None => py "N/A"
  end.

Definition newline : ascii := ascii_of_nat 10.

(** Lines 124-125, applied to the text of the cell next to "Description". *)
Definition normalize (w : world) (t : str) : str :=
  Str.strip (Str.replace newline " " (unescape w (Str.strip t))).

(** Lines 122-127. *)
Definition clean_description_of (w : world) (cve_page_soup : list Soup.node)
    : M str :=
  match Soup.find (py "td") (Some (py "Description")) cve_page_soup with
  | Some description_cell =>
      t <- text_of (Soup.find_next_sibling (py "td") description_cell) ;;
      ret (normalize w t)
  | None => ret (py "Description not available.")
  end.

(** Lines 129-130. *)
Definition severity_of (clean_description : str) : option str :=
  match Re.search severity_pattern clean_description with
  | Some m => Re.group 1 m
  | None => None
  end.

(** Line 134. *)
Definition cve_name_of (title : str) : M str :=
  if Str.contains (py "- ") title
  then getitem (Str.split1 (py "- ") title) 1
  else ret (py "N/A").

(** Lines 121-139: the fields of one entry, from its feed fields and its
    parsed detail page. *)
Definition extract (w : world) (title link pub_date number : str)
    (cve_page_soup : list Soup.node) : M cve :=
  clean_description <- clean_description_of w cve_page_soup ;;
  let severity := severity_of clean_description in
  name <- cve_name_of title ;;
  ret {| cve_number := number;
         cve_name := name;
         cve_description := clean_description;
         cve_pubdate := pub_date;
         cve_link := link;
         cve_severity := severity |}.

(** Lines 109-142: the loop body once the three fields of the item are
    read. *)
Definition process_entry (w : world) (title link pub_date : str) : M unit :=
  let number := cve_number_of title in
  known <- cve_exists w number ;;
  if known then print (Skipping number)
  else
    cve_page_response <- requests_get w link ;;
    raise_for_status cve_page_response ;;;
    cve_page_soup <- BeautifulSoup (parse_html w) (content cve_page_response) ;;
    cve_details <- extract w title link pub_date number cve_page_soup ;;
    inserted <- insert_cve_to_db w cve_details ;;
    if inserted then print (Processed number) else ret tt.

(** Lines 105-142: the body of the loop over the feed items. *)
Definition process_item (w : world) (item : Soup.element) : M unit :=
  title <- text_of (Soup.find (py "title") None (Soup.children item)) ;;
  link <- text_of (Soup.find (py "link") None (Soup.children item)) ;;
  pub_date <- text_of (Soup.find (py "pubDate") None (Soup.children item)) ;;
  process_entry w title link pub_date.

(** Lines 99-142: what stands inside [try:]. *)
Definition try_block (w : world) : M unit :=
  response <- requests_get w url ;;
  raise_for_status response ;;;
  soup <- BeautifulSoup (parse_xml w) (content response) ;;
  let items := Soup.find_all (py "item") None soup in
  for_each (process_item w) items.

(** Lines 94-147: the two [except] clauses end the run with one line. *)
Definition fetch_and_process_cve (w : world) : M unit :=
  fun s =>
    match try_block w s with
    | (Ok _, s') => (Ok tt, s')
    | (Raise RequestException, s') => print Error_fetching_feed s'
    | (Raise _, s') => print Unexpected_error s'
    end.

(** Lines 153-156: the script itself. *)
Definition main (w : world) : M unit :=
  create_cve_table w ;;; fetch_and_process_cve w.

(** A database file that does not exist yet, and nothing done. *)
Definition fresh : state :=
  {| db := None; db_calls := 0; fetched := []; stdout := [] |}.

(** ** Vocabulary of the statements *)

(** A feed entry: the three fields the loop reads off an item. *)
Record entry : Type := { title : str; link : str; pub_date : str }.

Definition field (name : str) (item : Soup.element) : option str :=
  option_map (fun e => Soup.text (Soup.node_of e))
             (Soup.find name None (Soup.children item)).

Definition entry_of (item : Soup.element) : option entry :=
  match field (py "title") item, field (py "link") item,
        field (py "pubDate") item with
  | Some t, Some l, Some p => Some {| title := t; link := l; pub_date := p |}
  | _, _, _ => None
  end.

(** The n-th GET of the run fails when asked for [u]: [requests.get] raises
    or [raise_for_status] does. *)
Definition fetch_fails (w : world) (n : nat) (u : str) : bool :=
  match net w n u with
  | None => true
  | Some r => error_status r
  end.

(** The identifiers stored. *)
Definition numbers (s : state) : list str :=
  map cve_number (Sqlite.rows (db s)).

Definition stored (k : str) (s : state) : bool :=
  Sqlite.has_key k (Sqlite.rows (db s)).

(** The entries a run skipped, read off what it printed (the script keeps
    no counters). *)
Definition is_skipping (l : line) : bool :=
  match l with Skipping _ => true | _ => false end.

Definition skipped (s : state) : nat := length (filter is_skipping (stdout s)).

(** The calls the script makes on the database file, and the states they
    lead to from a file that does not exist yet. *)
Inductive call : Type :=
| Create_table
| Insert (r : cve)
| Exists (k : str)
| Run.

Definition perform (w : world) (c : call) (s : state) : state :=
  match c with
  | Create_table => snd (create_cve_table w s)
  | Insert r => snd (insert_cve_to_db w r s)
  | Exists k => snd (cve_exists w k s)
  | Run => snd (fetch_and_process_cve w s)
  end.

Inductive reachable (w : world) : state -> Prop :=
| reach_fresh : reachable w fresh
| reach_call s c : reachable w s -> reachable w (perform w c s).

(** All characters of [s] are in the class [p]. *)
Definition all_in (p : ascii -> bool) (s : str) : Prop :=
  Forall (fun c => p c = true) s.

(** [m] reads [CVE-], four digits, [-], four digits or more. *)
Definition is_cve_id (m : str) : Prop :=
  exists year num,
    m = py "CVE-" ++ year ++ py "-" ++ num /\
    all_in Str.isdecimal year /\ length year = 4 /\
    all_in Str.isdecimal num /\ 4 <= length num.

(** What lines 109-110 are to compute from a title: the leftmost text of
    the title that reads as a CVE identifier, with all the digits that
    follow; "N/A" when no part of the title reads as one. *)
Definition cve_number_spec (t number : str) : Prop :=
  (exists pre post,
     t = pre ++ number ++ post /\
     is_cve_id number /\
     (forall pre' m' post',
        t = pre' ++ m' ++ post' -> is_cve_id m' -> length pre <= length pre') /\
     (forall m' post',
        number ++ post = m' ++ post' -> is_cve_id m' -> length m' <= length number)) \/
  ((forall pre m post, t = pre ++ m ++ post -> ~ is_cve_id m) /\
   number = py "N/A").

(** [g] reads as digits, possibly followed by a dot and digits. *)
Definition is_number (g : str) : Prop :=
  exists int frac,
    g = int ++ frac /\
    all_in Str.isdecimal int /\ 1 <= length int /\
    (frac = [] \/
     exists dec, frac = py "." ++ dec /\ all_in Str.isdecimal dec /\ 1 <= length dec).

(** [m] reads [Severity:], blanks, the number [g], blanks, a bar, blanks
    and a word. *)
Definition is_severity (m g : str) : Prop :=
  exists ws1 ws2 ws3 label,
    m = py "Severity:" ++ ws1 ++ g ++ ws2 ++ py "|" ++ ws3 ++ label /\
    all_in Str.isspace ws1 /\ is_number g /\ all_in Str.isspace ws2 /\
    all_in Str.isspace ws3 /\ all_in Str.isword label /\ 1 <= length label.

(** What lines 129-130 are to compute from a description: the number of
    the leftmost text that reads as a severity, which is the same for every
    such text starting there; nothing when no part of the description reads
    as one. *)
Definition severity_spec (d : str) (severity : option str) : Prop :=
  (exists pre m post g,
     d = pre ++ m ++ post /\
     is_severity m g /\
     (forall pre' m' post' g',
        d = pre' ++ m' ++ post' -> is_severity m' g' -> length pre <= length pre') /\
     (forall m' post' g',
        m ++ post = m' ++ post' -> is_severity m' g' -> g' = g) /\
     severity = Some g) \/
  ((forall pre m post g, d = pre ++ m ++ post -> ~ is_severity m g) /\
   severity = None).

(** [sub] occurs in [s] after the prefix [a], before the suffix [b]. *)
Definition occurs_at (sub s a b : str) : Prop := s = a ++ sub ++ b.

(** ... and nowhere further left. *)
Definition first_occurrence (sub s a b : str) : Prop :=
  occurs_at sub s a b /\
  forall a' b', occurs_at sub s a' b' -> length a <= length a'.

(** What line 134 is to compute from a title. *)
Definition name_spec (t name : str) : Prop :=
  (exists a b, first_occurrence (py "- ") t a b /\ name = b) \/
  ((forall a b, ~ occurs_at (py "- ") t a b) /\ name = py "N/A").

(** A property of [html.unescape]: blanks around a text stay where they
    are and do not change what the text between them unescapes to. *)
Definition blank_transparent (u : str -> str) : Prop :=
  forall l x r,
    all_in Str.isspace l -> all_in Str.isspace r ->
    u (l ++ x ++ r) = l ++ u x ++ r.

(** The [td] tags of a page, in document order. *)
Definition cells (soup : list Soup.node) : list Soup.element :=
  Soup.find_all (py "td") None soup.

(** A [td] tag. *)
Definition is_cell (n : Soup.node) : Prop :=
  exists kids, n = Soup.Tag (py "td") kids.

(** What [find('td', string='Description')] looks for: a [td] whose
    [.string] is "Description". *)
Definition description_cell (e : Soup.element) : Prop :=
  is_cell (Soup.node_of e) /\
  Soup.string (Soup.node_of e) = Some (py "Description").

(** [d] is [t] with a space in the place of each newline. *)
Definition newlines_spaced (t d : str) : Prop :=
  Forall2 (fun c c' => c' = if Ascii.eqb c newline then " "%char else c) t d.

(** [d] is [t] without the blanks at its two ends. *)
Definition trimmed (t d : str) : Prop :=
  exists l r,
    t = l ++ d ++ r /\
    all_in Str.isspace l /\ all_in Str.isspace r /\
    (forall c d', d = c :: d' -> Str.isspace c = false) /\
    (forall d' c, d = d' ++ [c] -> Str.isspace c = false).

(** What the description is to be, from the text [t] of the cell next to
    "Description": [t] unescaped, its newlines replaced by spaces, and
    trimmed. *)
Definition description_spec (w : world) (t d : str) : Prop :=
  exists u, newlines_spaced (unescape w t) u /\ trimmed u d.


(** No database call of the world goes wrong. *)
Definition no_faults (w : world) : Prop := forall n, disk w n = NoFault.

(** The item is a feed entry whose identifier is stored. *)
Definition known (s : state) (item : Soup.element) : Prop :=
  exists e, entry_of item = Some e /\ stored (cve_number_of (title e)) s = true.

(** The database call reaches the table: the connection opens and the
    statement runs. *)
Definition statement_runs (f : fault) : bool :=
  match f with
  | NoFault | CommitFails => true
  | ConnectFails | ExecuteFails => false
  end.

(** The rows stored under the identifier [k]. *)
Definition rows_of (k : str) (s : state) : list cve :=
  filter (fun r => Str.eqb (cve_number r) k) (Sqlite.rows (db s)).

(** The identifiers of a table are pairwise distinct. *)
Definition unique_keys (d : Sqlite.database) : Prop :=
  NoDup (map cve_number (Sqlite.rows d)).

(** The table starts with the rows [rows0], in place. *)
Definition extends (rows0 : list cve) (d : Sqlite.database) : Prop :=
  exists added, Sqlite.rows d = rows0 ++ added.

(** [c] keeps the property [J] of the database, and what it returns
    satisfies [V]. *)
Definition keeps {A} (J : Sqlite.database -> Prop) (V : A -> Prop) (c : M A)
    : Prop :=
  forall s, J (db s) ->
    J (db (snd (c s))) /\
    match fst (c s) with
    | Ok a => V a
    | Raise _ => True
    end.

Definition any {A} (a : A) : Prop := True.

(** ** Concrete worlds

    Small sites and documents on which the statements below are run. *)
Module Example.
Import Soup.

Fixpoint assoc {A} (k : str) (l : list (str * A)) : option A :=
  match l with
  | [] => None
  | (k', a) :: l' => if Str.eqb k k' then Some a else assoc k l'
  end.

(** A site that answers every GET the same way each time, documents
    looked up by their body, the database calls going wrong as [faults]
    lists them (and not at all after that), and [html.unescape] on text
    without entities. *)
Definition world_of (site : list (str * response))
    (xml html : list (str * list node)) (faults : list fault) : world :=
  {| net := fun _ u => assoc u site;
     disk := fun n => nth n faults NoFault;
     parse_xml := fun c => Some (match assoc c xml with Some d => d | None => [] end);
     parse_html := fun c => Some (match assoc c html with Some d => d | None => [] end);
     unescape := fun t => t |}.

Definition ok (body : String.string) : response :=
  {| error_status := false; content := py body |}.

Definition http_error : response :=
  {| error_status := true; content := [] |}.

Definition item (title link date : String.string) : node :=
  Tag (py "item")
    [Tag (py "title") [Text (py title)];
     Tag (py "link") [Text (py link)];
     Tag (py "pubDate") [Text (py date)]].

Definition rss (items : list node) : list node :=
  [Tag (py "rss") [Tag (py "channel") (Tag (py "title") [Text (py "High severity")] :: items)]].

Definition page (cells : list node) : list node :=
  [Tag (py "html") [Tag (py "body") [Tag (py "table") [Tag (py "tr") cells]]]].

Definition td (t : String.string) : node := Tag (py "td") [Text (py t)].

Definition flaw : node :=
  item "CVE-2024-1234 - Example Flaw" "https://cvefeed.io/vuln/detail/CVE-2024-1234"
       "Mon, 01 Jan 2024 00:00:00 +0000".

Definition other : node :=
  item "CVE-2024-5678 - Other Flaw" "https://cvefeed.io/vuln/detail/CVE-2024-5678"
       "Tue, 02 Jan 2024 00:00:00 +0000".

Definition flaw_page : list node :=
  page [td "Description"; td "
   Severity: 7.5 | High. Some details.  "].

Definition flaw_row : cve :=
  {| cve_number := py "CVE-2024-1234";
     cve_name := py "Example Flaw";
     cve_description := py "Severity: 7.5 | High. Some details.";
     cve_pubdate := py "Mon, 01 Jan 2024 00:00:00 +0000";
     cve_link := py "https://cvefeed.io/vuln/detail/CVE-2024-1234";
     cve_severity := Some (py "7.5") |}.

(** The scenario of the specification: one new entry and its page. *)
Definition one_new_entry : world :=
  world_of
    [(url, ok "feed"); (py "https://cvefeed.io/vuln/detail/CVE-2024-1234", ok "page")]
    [(py "feed", rss [flaw])]
    [(py "page", flaw_page)]
    [].

Definition other_row : cve :=
  {| cve_number := py "CVE-2024-5678";
     cve_name := py "Other Flaw";
     cve_description := py "Description not available.";
     cve_pubdate := py "Tue, 02 Jan 2024 00:00:00 +0000";
     cve_link := py "https://cvefeed.io/vuln/detail/CVE-2024-5678";
     cve_severity := None |}.

(** The feed itself answers 500. *)
Definition feed_down : world :=
  world_of [(url, http_error)] [] [] [].

(** Two new entries; the page of the first answers 404, the page of the
    second is fine. *)
Definition first_page_down : world :=
  world_of
    [(url, ok "feed");
     (py "https://cvefeed.io/vuln/detail/CVE-2024-1234", http_error);
     (py "https://cvefeed.io/vuln/detail/CVE-2024-5678", ok "page")]
    [(py "feed", rss [flaw; other])]
    [(py "page", page [])]
    [].

(** The same feed with both pages up. *)
Definition both_pages_up : world :=
  world_of
    [(url, ok "feed");
     (py "https://cvefeed.io/vuln/detail/CVE-2024-1234", ok "page1");
     (py "https://cvefeed.io/vuln/detail/CVE-2024-5678", ok "page")]
    [(py "feed", rss [flaw; other])]
    [(py "page1", flaw_page); (py "page", page [])]
    [].

(** The scenario's world, where the fifth database call (the existence
    check of a second run of the script) gets a locked database. *)
Definition check_fails_on_rerun : world :=
  world_of
    [(url, ok "feed"); (py "https://cvefeed.io/vuln/detail/CVE-2024-1234", ok "page")]
    [(py "feed", rss [flaw])]
    [(py "page", flaw_page)]
    [NoFault; NoFault; NoFault; NoFault; ExecuteFails].

(** A page whose only cell that reads "Description" holds the word in two
    pieces: its [.text] is "Description", its [.string] is [None]. *)
Definition split_label_page : list node :=
  page [Tag (py "td") [Text (py "Desc"); Tag (py "b") [Text (py "ription")]];
        td "Severity: 9.8 | Critical"].

(** A page whose first cell holds the word in a comment: its [.text] is
    empty, its [.string] is "Description". *)
Definition comment_label_page : list node :=
  page [Tag (py "td") [Comment (py "Description")];
        td "Severity: 9.8 | Critical"].

(** A detail page whose "Description" cell stands alone in its row. *)
Definition lonely_cell_page : list node := page [td "Description"].

Definition lonely_cell : world :=
  world_of
    [(url, ok "feed"); (py "https://cvefeed.io/vuln/detail/CVE-2024-1234", ok "page")]
    [(py "feed", rss [flaw])]
    [(py "page", lonely_cell_page)]
    [].

(** The two items of [rss [flaw; other]], as [find_all] hands them out. *)
Definition flaw_item : element := {| node_of := flaw; following := [other] |}.

Definition flaw_entry : entry :=
  {| title := py "CVE-2024-1234 - Example Flaw";
     link := py "https://cvefeed.io/vuln/detail/CVE-2024-1234";
     pub_date := py "Mon, 01 Jan 2024 00:00:00 +0000" |}.

(** The state after [create_cve_table] on a new database file. *)
Definition created : state :=
  {| db := Some []; db_calls := 1; fetched := []; stdout := [Table_ready] |}.

(** Two advisories whose titles carry no CVE identifier. *)
Definition notice_a : node :=
  item "Security notice for the mail gateway" "https://cvefeed.io/vuln/detail/a"
       "Wed, 03 Jan 2024 00:00:00 +0000".

Definition notice_b : node :=
  item "Kernel update - several fixes" "https://cvefeed.io/vuln/detail/b"
       "Thu, 04 Jan 2024 00:00:00 +0000".

Definition notice_b_item : element := {| node_of := notice_b; following := [] |}.

Definition notice_b_entry : entry :=
  {| title := py "Kernel update - several fixes";
     link := py "https://cvefeed.io/vuln/detail/b";
     pub_date := py "Thu, 04 Jan 2024 00:00:00 +0000" |}.

Definition notices (faults : list fault) : world :=
  world_of
    [(url, ok "feed");
     (py "https://cvefeed.io/vuln/detail/a", ok "page");
     (py "https://cvefeed.io/vuln/detail/b", ok "page")]
    [(py "feed", rss [notice_a; notice_b])]
    [(py "page", page [])]
    faults.

(** The fourth database call of the run is the existence check of the
    second notice. *)
Definition second_check_fails : list fault :=
  [NoFault; NoFault; NoFault; ExecuteFails].

(** The scenario's world, where the commit of the [INSERT] fails. *)
Definition commit_fails : world :=
  world_of
    [(url, ok "feed"); (py "https://cvefeed.io/vuln/detail/CVE-2024-1234", ok "page")]
    [(py "feed", rss [flaw])]
    [(py "page", flaw_page)]
    [NoFault; NoFault; CommitFails].

End Example.

(** ** Vocabulary of the further properties *)

(** The [INSERT] of [r] will go through: the connection opens, the statement
    and its commit run, the table exists and has no row under the
    identifier of [r]. *)
Definition accepts (w : world) (r : cve) (s : state) : bool :=
  match disk w (db_calls s), db s with
  | NoFault, Some rows => negb (Sqlite.has_key (cve_number r) rows)
  | _, _ => false
  end.

(** A sequence of calls, made one after the other. *)
Definition perform_all (w : world) (cs : list call) (s : state) : state :=
  fold_left (fun s' c => perform w c s') cs s.

(** The states the script reaches when it is run again and again, from a
    database file that does not exist yet. *)
Inductive ran (w : world) : state -> Prop :=
| ran_fresh : ran w fresh
| ran_again s : ran w s -> ran w (snd (main w s)).

(** [k] reads as a CVE identifier, or is the placeholder. *)
Definition identifier_shaped (k : str) : Prop :=
  is_cve_id k \/ k = py "N/A".

(** [d] has no newline in it and no blank at either end. *)
Definition tidy (d : str) : Prop :=
  ~ In newline d /\ Str.strip d = d.

(** [r] is a record [extract] can return for the entry [(t, l, p)] under
    the identifier [n]. *)
Definition built (w : world) (t l p n : str) (r : cve) : Prop :=
  exists soup s, extract w t l p n soup s = (Ok r, s).

(** A line that reports neither a stored entry nor a skipped one. *)
Definition quiet (l : line) : bool :=
  match l with
  | Processed _ | Skipping _ => false
  | _ => true
  end.

(** The identifiers of the "Processed CVE" lines, in the order printed. *)
Definition processed (out : list line) : list str :=
  flat_map (fun l => match l with Processed k => [k] | _ => [] end) out.

(** [l1] is [l2] with some elements left out. *)
Inductive subseq {A : Type} : list A -> list A -> Prop :=
| sub_nil : subseq [] []
| sub_take x l1 l2 : subseq l1 l2 -> subseq (x :: l1) (x :: l2)
| sub_skip x l1 l2 : subseq l1 l2 -> subseq l1 (x :: l2).

(** The links of the items of a feed that have their three fields. *)
Definition links_of (items : list Soup.element) : list str :=
  flat_map (fun item => match entry_of item with
                        | Some e => [link e]
                        | None => []
                        end) items.

(** What the loop body did for the entry of title [t] and link [l], from
    the state [s] to the state [s']: it skipped the entry, it stored a row
    for it, or it left the table alone. *)
Inductive effect (t l : str) (s s' : state) : Prop :=
| Entry_skipped :
    stored (cve_number_of t) s = true ->
    db s' = db s ->
    fetched s' = fetched s ->
    stdout s' = stdout s ++ [Skipping (cve_number_of t)] ->
    effect t l s s'
| Entry_stored (r : cve) (ls : list line) :
    forallb quiet ls = true ->
    cve_number r = cve_number_of t ->
    db s <> None ->
    db s' = Some (Sqlite.rows (db s) ++ [r]) ->
    fetched s' = fetched s ++ [l] ->
    stdout s' = stdout s ++ ls ++ [Processed (cve_number_of t)] ->
    effect t l s s'
| Entry_dropped (ls : list line) :
    forallb quiet ls = true ->
    db s' = db s ->
    fetched s' = fetched s \/ fetched s' = fetched s ++ [l] ->
    stdout s' = stdout s ++ ls ->
    effect t l s s'.

(** From [s] to [s'] rows were only appended, one for each "Processed
    CVE" line printed, in the same order and under the same identifier. *)
Definition agree (s s' : state) : Prop :=
  exists added,
    Sqlite.rows (db s') = Sqlite.rows (db s) ++ added /\
    processed (stdout s') = processed (stdout s) ++ map cve_number added.

(** From [s] to [s'] no table came to exist and no entry was skipped. *)
Definition tableless (s s' : state) : Prop :=
  db s = None -> db s' = None /\ skipped s' = skipped s.

(** The identifiers of the items of a feed that have their three fields. *)
Definition numbers_of (items : list Soup.element) : list str :=
  flat_map (fun item => match entry_of item with
                        | Some e => [cve_number_of (title e)]
                        | None => []
                        end) items.

(** The items of the feed that a run started in [s] is served: those of
    the parsed answer to its first request.  There are none to work on when
    that request fails ([requests.get] raises, or the answer has an error
    status) or when the parser rejects the answer. *)
Definition served_items (w : world) (s : state) : option (list Soup.element) :=
  match net w (length (fetched s)) url with
  | Some r =>
      if error_status r then None
      else option_map (Soup.find_all (py "item") None) (parse_xml w (content r))
  | None => None
  end.

(** The item has its three fields and its detail page is up: whenever it
    is asked for, the answer has no error status, the parser takes it, and
    its "Description" cell, if any, is followed by a cell. *)
Definition page_up (w : world) (item : Soup.element) : Prop :=
  exists e,
    entry_of item = Some e /\
    forall n, exists resp soup,
      net w n (link e) = Some resp /\
      error_status resp = false /\
      parse_html w (content resp) = Some soup /\
      match Soup.find (py "td") (Some (py "Description")) soup with
      | Some cell => Soup.find_next_sibling (py "td") cell <> None
      | None => True
      end.

(** ** More concrete worlds *)
Module More.

(** A feed whose second item has no [pubDate]. *)
Definition undated : Soup.node :=
  Soup.Tag (py "item")
    [Soup.Tag (py "title") [Soup.Text (py "CVE-2024-5678 - Other Flaw")];
     Soup.Tag (py "link") [Soup.Text (py "https://cvefeed.io/vuln/detail/CVE-2024-5678")]].

Definition undated_item : Soup.element :=
  {| Soup.node_of := undated; Soup.following := [Example.other] |}.

Definition flaw_item : Soup.element :=
  {| Soup.node_of := Example.flaw; Soup.following := [undated; Example.other] |}.

Definition last_item : Soup.element :=
  {| Soup.node_of := Example.other; Soup.following := [] |}.

Definition undated_feed : world :=
  Example.world_of
    [(url, Example.ok "feed");
     (py "https://cvefeed.io/vuln/detail/CVE-2024-1234", Example.ok "page1");
     (py "https://cvefeed.io/vuln/detail/CVE-2024-5678", Example.ok "page")]
    [(py "feed", Example.rss [Example.flaw; undated; Example.other])]
    [(py "page1", Example.flaw_page); (py "page", Example.page [])]
    [].

(** The site of [Example.both_pages_up], where [BeautifulSoup] rejects the
    page of the first entry. *)
Definition rejected_page : world :=
  {| net := net Example.both_pages_up;
     disk := disk Example.both_pages_up;
     parse_xml := parse_xml Example.both_pages_up;
     parse_html := fun c => if Str.eqb c (py "page1") then None
                            else parse_html Example.both_pages_up c;
     unescape := unescape Example.both_pages_up |}.

(** The feed answers with an error status and a body that reads as a feed
    of one entry. *)
Definition error_with_body : world :=
  Example.world_of
    [(url, {| error_status := true; content := py "feed" |});
     (py "https://cvefeed.io/vuln/detail/CVE-2024-1234", Example.ok "page")]
    [(py "feed", Example.rss [Example.flaw])]
    [(py "page", Example.flaw_page)]
    [].

End More.

(** * Properties *)

Unset Implicit Arguments.

(** The scenario of the specification, run on the script. *)
Example scenario_one_new_entry :
  snd (main Example.one_new_entry fresh) =
  {| db := Some [Example.flaw_row];
     db_calls := 3;
     fetched := [url; py "https://cvefeed.io/vuln/detail/CVE-2024-1234"];
     stdout := [Table_ready; Inserted (py "CVE-2024-1234"); Processed (py "CVE-2024-1234")] |}.
Proof. vm_compute. reflexivity. Qed.

Example scenario_both_pages_up :
  db (snd (main Example.both_pages_up fresh)) = Some [Example.flaw_row; Example.other_row].
Proof. vm_compute. reflexivity. Qed.

Example scenario_first_page_down :
  snd (main Example.first_page_down fresh) =
  {| db := Some [];
     db_calls := 2;
     fetched := [url; py "https://cvefeed.io/vuln/detail/CVE-2024-1234"];
     stdout := [Table_ready; Error_fetching_feed] |}.
Proof. vm_compute. reflexivity. Qed.

(** ** Strings *)

Lemma str_eqb_eq (s t : str) : Str.eqb s t = true <-> s = t.
Proof.
  revert t; induction s as [|a s IH]; intros [|b t]; simpl; split;
    try congruence; try reflexivity.
  - intros H. apply andb_prop in H as [Hab Hst].
    apply Ascii.eqb_eq in Hab. apply IH in Hst. congruence.
  - intros H. injection H as -> ->.
    rewrite Ascii.eqb_refl. simpl. now apply IH.
Qed.

Lemma str_eqb_refl (s : str) : Str.eqb s s = true.
Proof. now apply str_eqb_eq. Qed.

Lemma str_eqb_neq (s t : str) : Str.eqb s t = false <-> s <> t.
Proof.
  split.
  - intros H E. apply str_eqb_eq in E. congruence.
  - intros H. destruct (Str.eqb s t) eqn:E; [|reflexivity].
    apply str_eqb_eq in E. contradiction.
Qed.

Lemma startswith_app (p rest : str) : Str.startswith p (p ++ rest) = true.
Proof.
  induction p as [|a p IH]; simpl; [reflexivity|].
  now rewrite Ascii.eqb_refl, IH.
Qed.

Lemma startswith_inv (p s : str) :
  Str.startswith p s = true -> exists rest, s = p ++ rest.
Proof.
  revert s; induction p as [|a p IH]; intros s; simpl.
  - intros _. now exists s.
  - destruct s as [|b s]; [discriminate|].
    intros H. apply andb_prop in H as [Hab Hp].
    apply Ascii.eqb_eq in Hab as ->.
    destruct (IH s Hp) as [rest ->]. now exists rest.
Qed.

(** [s.find(sub)] returns the index of the leftmost occurrence. *)
Lemma find_some (sub s : str) (i : nat) :
  Str.find sub s = Some i ->
  first_occurrence sub s (firstn i s) (skipn (i + length sub) s) /\
  length (firstn i s) = i.
Proof.
  revert i; induction s as [|c s IH]; intros i.
  - simpl. destruct (Str.startswith sub []) eqn:E; [|discriminate].
    intros H; injection H as <-.
    apply startswith_inv in E as [rest E].
    destruct sub; [|discriminate]. simpl in *. subst rest.
    repeat split; simpl; auto. intros a' b' _. apply Nat.le_0_l.
  - simpl. destruct (Str.startswith sub (c :: s)) eqn:E.
    + intros H; injection H as <-.
      apply startswith_inv in E as [rest E]. rewrite E.
      change (0 + length sub) with (length sub).
      rewrite skipn_app, Nat.sub_diag, skipn_all. simpl.
      repeat split. intros a' b' _. apply Nat.le_0_l.
    + destruct (Str.find sub s) as [j|] eqn:F; [|discriminate].
      simpl. intros H; injection H as <-.
      destruct (IH j eq_refl) as [[Hocc Hmin] Hlen].
      repeat split.
      * unfold occurs_at in *. simpl. f_equal. exact Hocc.
      * intros a' b' H'. unfold occurs_at in H'.
        destruct a' as [|c' a'].
        -- simpl in H'. rewrite H', startswith_app in E. discriminate.
        -- simpl in H'. injection H' as _ H'.
           simpl. rewrite Hlen. apply le_n_S.
           specialize (Hmin a' b' H'). now rewrite Hlen in Hmin.
      * simpl. now rewrite Hlen.
Qed.

Lemma find_none (sub s : str) :
  Str.find sub s = None -> forall a b, ~ occurs_at sub s a b.
Proof.
  induction s as [|c s IH]; simpl.
  - destruct (Str.startswith sub []) eqn:E; [discriminate|].
    intros _ a b H. unfold occurs_at in H.
    destruct a; [|discriminate]. simpl in H.
    rewrite H, startswith_app in E. discriminate.
  - destruct (Str.startswith sub (c :: s)) eqn:E; [discriminate|].
    destruct (Str.find sub s) as [j|] eqn:F; [discriminate|].
    intros _ a b H. unfold occurs_at in H.
    destruct a as [|c' a]; simpl in H.
    + rewrite H, startswith_app in E. discriminate.
    + injection H as _ H. exact (IH eq_refl a b H).
Qed.

(** ** The feed-level failure *)

(** C9. If the GET of the feed fails ([requests.get] raises, or
    [raise_for_status] raises on the answer), the run ends at once on the
    line "Error fetching CVE feed": the only request made is the one for
    the feed, no database call is made for any entry, and the table is the
    one the run started from. *)
Theorem feed_failure_aborts_run (w : world) (s : state) :
  fetch_fails w (length (fetched s)) url = true ->
  fetch_and_process_cve w s =
  (Ok tt, printed Error_fetching_feed (requested url s)).
Proof.
  unfold fetch_fails, fetch_and_process_cve, try_block, bind, requests_get.
  destruct (net w (length (fetched s)) url) as [r|]; intros H.
  - unfold raise_for_status. rewrite H. reflexivity.
  - reflexivity.
Qed.

Lemma feed_failure_aborts_run_witness :
  fetch_fails Example.feed_down (length (fetched fresh)) url = true /\
  fetch_and_process_cve Example.feed_down fresh =
  (Ok tt, {| db := None; db_calls := 0; fetched := [url];
             stdout := [Error_fetching_feed] |}).
Proof.
  split; [reflexivity|].
  exact (feed_failure_aborts_run Example.feed_down fresh eq_refl).
Defined.

(** ** The loop *)

Lemma for_each_app {A} (body : A -> M unit) (l1 l2 : list A) (s : state) :
  for_each body (l1 ++ l2) s =
  match for_each body l1 s with
  | (Ok _, s1) => for_each body l2 s1
  | (Raise e, s1) => (Raise e, s1)
  end.
Proof.
  revert s; induction l1 as [|x l1 IH]; intros s; simpl.
  - reflexivity.
  - unfold bind. destruct (body x s) as [[[]|e] s1]; [apply IH|reflexivity].
Qed.

Lemma process_item_entry (w : world) (item : Soup.element) (e : entry) (s : state) :
  entry_of item = Some e ->
  process_item w item s = process_entry w (title e) (link e) (pub_date e) s.
Proof.
  unfold entry_of, field, process_item.
  destruct (Soup.find (py "title") None (Soup.children item)) as [t|];
    cbn [option_map]; [|intros H; discriminate H].
  destruct (Soup.find (py "link") None (Soup.children item)) as [l|];
    cbn [option_map]; [|intros H; discriminate H].
  destruct (Soup.find (py "pubDate") None (Soup.children item)) as [p|];
    cbn [option_map]; [|intros H; discriminate H].
  intros H; injection H as <-. reflexivity.
Qed.



(** Once the feed is served and parsed, what stands inside [try:] is the
    loop over its items. *)
Lemma try_block_served (w : world) (s : state) (r : response)
    (soup : list Soup.node) :
  net w (length (fetched s)) url = Some r ->
  error_status r = false ->
  parse_xml w (content r) = Some soup ->
  try_block w s =
  for_each (process_item w) (Soup.find_all (py "item") None soup)
           (requested url s).
Proof.
  intros Hnet Hok Hsoup.
  unfold try_block, bind at 1, requests_get. rewrite Hnet.
  unfold bind at 1, raise_for_status. rewrite Hok. unfold ret.
  unfold bind at 1, BeautifulSoup. rewrite Hsoup. reflexivity.
Qed.


(** ** What the script does to the table

    A property of the table that [CREATE TABLE] and the [INSERT]s of a
    computation keep is kept by the computation. *)

Lemma keeps_ret {A} J (V : A -> Prop) (a : A) : V a -> keeps J V (ret a).
Proof. intros Ha s Hs. simpl. auto. Qed.

Lemma keeps_raise {A} J (V : A -> Prop) (e : exn) : keeps J V (raise e).
Proof. intros s Hs. simpl. auto. Qed.

Lemma keeps_bind {A B} J (V : A -> Prop) (V' : B -> Prop) (c : M A) (k : A -> M B) :
  keeps J V c -> (forall a, V a -> keeps J V' (k a)) -> keeps J V' (bind c k).
Proof.
  intros Hc Hk s Hs. unfold bind.
  destruct (Hc s Hs) as [H1 H2].
  destruct (c s) as [[a|e] s1]; simpl in *.
  - apply (Hk a H2 s1 H1).
  - auto.
Qed.

Lemma keeps_print J (l : line) : keeps J any (print l).
Proof. intros s Hs. simpl. unfold any. auto. Qed.

Lemma keeps_get_db_connection J (w : world) : keeps J any (get_db_connection w).
Proof.
  intros s Hs. unfold get_db_connection.
  destruct (disk w (db_calls s)); simpl; unfold any; auto.
Qed.

Lemma keeps_requests_get J (w : world) (u : str) : keeps J any (requests_get w u).
Proof.
  intros s Hs. unfold requests_get.
  destruct (net w (length (fetched s)) u); simpl; unfold any; auto.
Qed.

Lemma keeps_raise_for_status J (r : response) : keeps J any (raise_for_status r).
Proof.
  unfold raise_for_status. destruct (error_status r).
  - apply keeps_raise.
  - now apply keeps_ret.
Qed.

Lemma keeps_text_of J (t : option Soup.element) : keeps J any (text_of t).
Proof.
  destruct t; simpl; [now apply keeps_ret|apply keeps_raise].
Qed.

Lemma keeps_BeautifulSoup J (parse : str -> option (list Soup.node)) (c : str) :
  keeps J any (BeautifulSoup parse c).
Proof.
  unfold BeautifulSoup. destruct (parse c); [now apply keeps_ret|apply keeps_raise].
Qed.

Lemma keeps_getitem J (l : list str) (i : nat) : keeps J any (getitem l i).
Proof.
  unfold getitem. destruct (nth_error l i); [now apply keeps_ret|apply keeps_raise].
Qed.

Lemma keeps_for_each {A} J (body : A -> M unit) (l : list A) :
  (forall x, keeps J any (body x)) -> keeps J any (for_each body l).
Proof.
  intros Hb. induction l as [|x l IH]; simpl.
  - now apply keeps_ret.
  - apply keeps_bind with (V := any); auto.
Qed.

Lemma keeps_cve_exists J (w : world) (k : str) : keeps J any (cve_exists w k).
Proof.
  unfold cve_exists.
  apply keeps_bind with (V := any); [apply keeps_get_db_connection|].
  intros [c|] _; [|now apply keeps_ret].
  apply keeps_bind with (V := any).
  - intros s Hs. unfold execute_select.
    destruct (failing c); simpl; unfold any; auto.
  - intros [e|b] _; [|now apply keeps_ret].
    apply keeps_bind with (V := any); [apply keeps_print|].
    intros; now apply keeps_ret.
Qed.

Lemma keeps_insert_cve_to_db (J : Sqlite.database -> Prop) (w : world) (r : cve) :
  (forall d, J d -> J (fst (Sqlite.insert r d))) ->
  keeps J any (insert_cve_to_db w r).
Proof.
  intros HJ. unfold insert_cve_to_db.
  apply keeps_bind with (V := any); [apply keeps_get_db_connection|].
  intros [c|] _; [|now apply keeps_ret].
  apply keeps_bind with (V := J); [intros s Hs; simpl; auto|].
  intros before Hbefore.
  apply keeps_bind with (V := any).
  - intros s Hs. unfold execute_insert.
    destruct (failing c); simpl; unfold any; auto.
  - intros [e|] _.
    + apply keeps_bind with (V := any); [apply keeps_print|].
      intros; now apply keeps_ret.
    + apply keeps_bind with (V := any); [apply keeps_print|]. intros _ _.
      apply keeps_bind with (V := any).
      * intros s Hs. unfold commit.
        destruct (commit_failing c); simpl; unfold any; auto.
      * intros [e|] _; [|now apply keeps_ret].
        apply keeps_bind with (V := any); [apply keeps_print|].
        intros; now apply keeps_ret.
Qed.

Lemma keeps_create_cve_table (J : Sqlite.database -> Prop) (w : world) :
  (forall d, J d -> J (Sqlite.create_table d)) ->
  keeps J any (create_cve_table w).
Proof.
  intros HJ. unfold create_cve_table.
  apply keeps_bind with (V := any); [apply keeps_get_db_connection|].
  intros [c|] _; [|now apply keeps_ret].
  apply keeps_bind with (V := any).
  - intros s Hs. unfold execute_create.
    destruct (failing c); simpl; unfold any; auto.
  - intros [e|] _.
    + apply keeps_bind with (V := any); [apply keeps_print|].
      intros; now apply keeps_ret.
    + apply keeps_bind with (V := any); [apply keeps_print|].
      intros; now apply keeps_ret.
Qed.

(** The row [extract] builds carries the identifier it was given. *)
Lemma keeps_extract J (w : world) (t l p n : str) (soup : list Soup.node) :
  keeps J (fun r => cve_number r = n) (extract w t l p n soup).
Proof.
  unfold extract.
  apply keeps_bind with (V := any).
  - unfold clean_description_of.
    destruct (Soup.find (py "td") (Some (py "Description")) soup).
    + apply keeps_bind with (V := any); [apply keeps_text_of|].
      intros; now apply keeps_ret.
    + now apply keeps_ret.
  - intros d _. apply keeps_bind with (V := any).
    + unfold cve_name_of. destruct (Str.contains (py "- ") t).
      * apply keeps_getitem.
      * now apply keeps_ret.
    + intros name _. now apply keeps_ret.
Qed.

Lemma keeps_process_entry (J : Sqlite.database -> Prop) (w : world) (t l p : str) :
  (forall r d, cve_number r = cve_number_of t -> J d -> J (fst (Sqlite.insert r d))) ->
  keeps J any (process_entry w t l p).
Proof.
  intros HJ. unfold process_entry.
  apply keeps_bind with (V := any); [apply keeps_cve_exists|].
  intros [|] _; [apply keeps_print|].
  apply keeps_bind with (V := any); [apply keeps_requests_get|].
  intros r _.
  apply keeps_bind with (V := any); [apply keeps_raise_for_status|].
  intros _ _.
  apply keeps_bind with (V := any); [apply keeps_BeautifulSoup|].
  intros soup _.
  apply keeps_bind with (V := fun r => cve_number r = cve_number_of t);
    [apply keeps_extract|].
  intros details Hd.
  apply keeps_bind with (V := any).
  - apply keeps_insert_cve_to_db. intros d. now apply HJ.
  - intros [|] _; [apply keeps_print|now apply keeps_ret].
Qed.

Lemma keeps_process_item (J : Sqlite.database -> Prop) (w : world) (item : Soup.element) :
  (forall r d, J d -> J (fst (Sqlite.insert r d))) ->
  keeps J any (process_item w item).
Proof.
  intros HJ. unfold process_item.
  apply keeps_bind with (V := any); [apply keeps_text_of|]. intros t _.
  apply keeps_bind with (V := any); [apply keeps_text_of|]. intros l _.
  apply keeps_bind with (V := any); [apply keeps_text_of|]. intros p _.
  apply keeps_process_entry. intros r d _. apply HJ.
Qed.

Lemma keeps_fetch_and_process_cve (J : Sqlite.database -> Prop) (w : world) :
  (forall r d, J d -> J (fst (Sqlite.insert r d))) ->
  keeps J any (fetch_and_process_cve w).
Proof.
  intros HJ.
  assert (Htry : keeps J any (try_block w)).
  { unfold try_block.
    apply keeps_bind with (V := any); [apply keeps_requests_get|]. intros r _.
    apply keeps_bind with (V := any); [apply keeps_raise_for_status|]. intros _ _.
    apply keeps_bind with (V := any); [apply keeps_BeautifulSoup|]. intros soup _.
    apply keeps_for_each. intros item. now apply keeps_process_item. }
  intros s Hs. unfold fetch_and_process_cve.
  destruct (Htry s Hs) as [H1 _].
  destruct (try_block w s) as [[[]|[]] s1]; simpl in *; unfold any; auto.
Qed.

(** ** The primary key *)

Lemma has_key_In (k : str) (t : list cve) :
  Sqlite.has_key k t = true <-> In k (map cve_number t).
Proof.
  unfold Sqlite.has_key. rewrite existsb_exists, in_map_iff. split.
  - intros [r [Hr Hk]]. apply str_eqb_eq in Hk. now exists r.
  - intros [r [Hk Hr]]. exists r. split; [exact Hr|]. now apply str_eqb_eq.
Qed.

Lemma insert_rows (r : cve) (d : Sqlite.database) :
  Sqlite.rows (fst (Sqlite.insert r d)) = Sqlite.rows d \/
  (Sqlite.has_key (cve_number r) (Sqlite.rows d) = false /\
   Sqlite.rows (fst (Sqlite.insert r d)) = Sqlite.rows d ++ [r]).
Proof.
  destruct d as [t|]; simpl; [|now left].
  destruct (Sqlite.has_key (cve_number r) t) eqn:E; simpl; [now left|now right].
Qed.

Lemma create_table_rows (d : Sqlite.database) :
  Sqlite.rows (Sqlite.create_table d) = Sqlite.rows d.
Proof. now destruct d. Qed.

Lemma insert_unique_keys (r : cve) (d : Sqlite.database) :
  unique_keys d -> unique_keys (fst (Sqlite.insert r d)).
Proof.
  unfold unique_keys. intros H.
  destruct (insert_rows r d) as [->|[Hk ->]]; [exact H|].
  rewrite map_app. simpl.
  apply NoDup_app; [exact H|repeat constructor; intros []|].
  intros k Hin [<-|[]].
  apply has_key_In in Hin. congruence.
Qed.

Lemma insert_extends (rows0 : list cve) (r : cve) (d : Sqlite.database) :
  extends rows0 d -> extends rows0 (fst (Sqlite.insert r d)).
Proof.
  intros [added H]. unfold extends.
  destruct (insert_rows r d) as [E|[_ E]]; rewrite E.
  - now exists added.
  - exists (added ++ [r]). now rewrite H, app_assoc.
Qed.

Lemma keeps_perform (J : Sqlite.database -> Prop) (w : world) (c : call) (s : state) :
  (forall d, J d -> J (Sqlite.create_table d)) ->
  (forall r d, J d -> J (fst (Sqlite.insert r d))) ->
  J (db s) -> J (db (perform w c s)).
Proof.
  intros Hc Hi Hs. destruct c as [|r|k|]; simpl.
  - now apply (keeps_create_cve_table J w Hc s).
  - apply (keeps_insert_cve_to_db J w r); [intros d; apply Hi|exact Hs].
  - now apply (keeps_cve_exists J w k s).
  - now apply (keeps_fetch_and_process_cve J w Hi s).
Qed.

Lemma reachable_unique_keys (w : world) (s : state) :
  reachable w s -> NoDup (numbers s).
Proof.
  induction 1 as [|s c _ IH].
  - constructor.
  - apply (keeps_perform unique_keys w c s); auto.
    + intros d. unfold unique_keys. now rewrite create_table_rows.
    + intros r d. apply insert_unique_keys.
Qed.

Lemma perform_extends (w : world) (c : call) (s : state) :
  exists added, Sqlite.rows (db (perform w c s)) = Sqlite.rows (db s) ++ added.
Proof.
  apply (keeps_perform (extends (Sqlite.rows (db s))) w c s).
  - intros d. unfold extends. now rewrite create_table_rows.
  - intros r d. apply insert_extends.
  - exists []. now rewrite app_nil_r.
Qed.




Example insert_of_a_stored_identifier :
  stored (py "CVE-2024-1234") (snd (main Example.one_new_entry fresh)) = true /\
  fst (insert_cve_to_db Example.one_new_entry Example.flaw_row
         (snd (main Example.one_new_entry fresh))) = Ok false.
Proof. split; reflexivity. Qed.

(** ** Entries already stored *)

Lemma cve_exists_found (w : world) (k : str) (s : state) :
  statement_runs (disk w (db_calls s)) = true ->
  stored k s = true ->
  cve_exists w k s = (Ok true, ticked s).
Proof.
  unfold stored, cve_exists, bind at 1, get_db_connection. intros Hd Hk.
  destruct (disk w (db_calls s)); try discriminate;
    unfold bind, execute_select, tick, ret; simpl;
    (destruct (db s) as [t|]; simpl in *; [|discriminate]);
    rewrite Hk; reflexivity.
Qed.

Lemma skipped_printed (k : str) (s : state) :
  skipped (printed (Skipping k) s) = S (skipped s).
Proof.
  unfold skipped, printed. simpl.
  rewrite filter_app, length_app. simpl. lia.
Qed.

Lemma process_entry_known (w : world) (t l p : str) (s : state) :
  stored (cve_number_of t) s = true ->
  db (snd (process_entry w t l p s)) = db s /\
  (statement_runs (disk w (db_calls s)) = true ->
   process_entry w t l p s =
   (Ok tt, printed (Skipping (cve_number_of t)) (ticked s))).
Proof.
  intros Hk. split.
  - apply (keeps_process_entry (fun d => d = db s) w t l p); [|reflexivity].
    intros r d Hr ->. unfold stored in Hk. rewrite <- Hr in Hk.
    destruct (db s) as [rows|]; simpl in *; [|discriminate].
    now rewrite Hk.
  - intros Hd. unfold process_entry, bind.
    now rewrite (cve_exists_found w _ s Hd Hk).
Qed.

(** C3, as the script has it. Processing a feed entry whose identifier is
    already stored never changes the table.  When the existence check itself
    goes through, the entry is skipped: the body of the loop ends normally on
    the line "... already exists. Skipping." (one more entry skipped), and no
    request is made. *)
Theorem known_entry_is_skipped (w : world) (s : state) (item : Soup.element)
    (e : entry) :
  entry_of item = Some e ->
  stored (cve_number_of (title e)) s = true ->
  db (snd (process_item w item s)) = db s /\
  (statement_runs (disk w (db_calls s)) = true ->
   fst (process_item w item s) = Ok tt /\
   stdout (snd (process_item w item s)) =
     stdout s ++ [Skipping (cve_number_of (title e))] /\
   skipped (snd (process_item w item s)) = S (skipped s) /\
   fetched (snd (process_item w item s)) = fetched s).
Proof.
  intros He Hk. rewrite (process_item_entry w item e s He).
  destruct (process_entry_known w (title e) (link e) (pub_date e) s Hk) as [H1 H2].
  split; [exact H1|]. intros Hd. rewrite (H2 Hd). simpl.
  repeat split. apply (skipped_printed _ (ticked s)).
Qed.

Lemma known_entry_is_skipped_witness :
  stored (py "CVE-2024-1234") (snd (main Example.one_new_entry fresh)) = true /\
  db (snd (process_item Example.one_new_entry Example.flaw_item
             (snd (main Example.one_new_entry fresh)))) =
    db (snd (main Example.one_new_entry fresh)) /\
  skipped (snd (process_item Example.one_new_entry Example.flaw_item
                  (snd (main Example.one_new_entry fresh)))) = 1.
Proof.
  pose proof (known_entry_is_skipped Example.one_new_entry
                (snd (main Example.one_new_entry fresh))
                Example.flaw_item Example.flaw_entry eq_refl eq_refl) as [H1 H2].
  split; [reflexivity|]. split; [exact H1|].
  destruct (H2 eq_refl) as (_ & _ & H3 & _). exact H3.
Defined.

(** C3 fails as stated when the existence check itself fails.  A second run
    of the script over the same feed, with the database locked during the
    check: the identifier is stored, and yet the entry is not skipped and
    its detail page is requested again. *)
Lemma failed_check_refetches_known_entry :
  stored (py "CVE-2024-1234") (snd (main Example.check_fails_on_rerun fresh)) = true /\
  fetched (snd (main Example.check_fails_on_rerun
                 (snd (main Example.check_fails_on_rerun fresh)))) =
    fetched (snd (main Example.check_fails_on_rerun fresh)) ++
    [url; py "https://cvefeed.io/vuln/detail/CVE-2024-1234"] /\
  skipped (snd (main Example.check_fails_on_rerun
                 (snd (main Example.check_fails_on_rerun fresh)))) = 0 /\
  stdout (snd (main Example.check_fails_on_rerun
                 (snd (main Example.check_fails_on_rerun fresh)))) =
    stdout (snd (main Example.check_fails_on_rerun fresh)) ++
    [Table_ready; Error_checking Sqlite.OperationalError;
     Error_inserting Sqlite.IntegrityError].
Proof. vm_compute. repeat split. Qed.

(** ** A detail page that cannot be fetched *)



(** ** Extraction *)

(** C2 fails on the script: a "Description" cell with no [td] after it.
    [find_next_sibling] returns [None], reading [.text] off it raises
    AttributeError, and no record is built, whatever the entry. *)
Theorem lonely_description_cell_raises (w : world) (t l p n : str) (s : state) :
  extract w t l p n Example.lonely_cell_page s = (Raise AttributeError, s).
Proof. reflexivity. Qed.

(** On that page the run ends on "Unexpected error" with nothing stored. *)
Example scenario_lonely_cell :
  snd (main Example.lonely_cell fresh) =
  {| db := Some [];
     db_calls := 2;
     fetched := [url; py "https://cvefeed.io/vuln/detail/CVE-2024-1234"];
     stdout := [Table_ready; Unexpected_error] |}.
Proof. vm_compute. reflexivity. Qed.


(** The name of an entry, line 134: never an IndexError. *)
Lemma cve_name_of_spec (t : str) (s : state) :
  exists name, cve_name_of t s = (Ok name, s) /\ name_spec t name.
Proof.
  unfold cve_name_of, Str.contains, Str.split1, name_spec.
  destruct (Str.find (py "- ") t) as [i|] eqn:F.
  - apply find_some in F as [Hfirst _].
    eexists. split; [reflexivity|]. left.
    exists (firstn i t), (skipn (i + length (py "- ")) t). now split.
  - eexists. split; [reflexivity|]. right. split; [|reflexivity].
    now apply find_none.
Qed.

Lemma extract_fields (w : world) (t l p n : str) (soup : list Soup.node)
    (s s' : state) (r : cve) :
  extract w t l p n soup s = (Ok r, s') ->
  exists d name,
    clean_description_of w soup s = (Ok d, s) /\
    cve_name_of t s = (Ok name, s) /\
    s' = s /\
    r = {| cve_number := n; cve_name := name; cve_description := d;
           cve_pubdate := p; cve_link := l; cve_severity := severity_of d |}.
Proof.
  unfold extract, bind.
  assert (Hd : (exists d, clean_description_of w soup s = (Ok d, s)) \/
               exists e, clean_description_of w soup s = (Raise e, s)).
  { unfold clean_description_of.
    destruct (Soup.find (py "td") (Some (py "Description")) soup) as [cell|].
    - unfold bind, text_of.
      destruct (Soup.find_next_sibling (py "td") cell); [left|right]; eexists; reflexivity.
    - left. eexists. reflexivity. }
  destruct Hd as [[d Hd]|[e Hd]]; rewrite Hd; [|discriminate].
  destruct (cve_name_of_spec t s) as [name [Hn _]]. rewrite Hn.
  unfold ret. intros H; injection H as <- <-.
  exists d, name. auto.
Qed.

(** C7. The name of a record is what follows the leftmost "- " of the
    entry title, and "N/A" for a title without "- "; computing it never
    fails. *)
Theorem name_is_rest_after_separator (t : str) (s : state) :
  exists name,
    cve_name_of t s = (Ok name, s) /\
    name_spec t name /\
    forall w l p n soup s0 s1 r,
      extract w t l p n soup s0 = (Ok r, s1) -> cve_name r = name.
Proof.
  destruct (cve_name_of_spec t s) as [name [Hn Hspec]].
  exists name. repeat split; auto.
  intros w l p n soup s0 s1 r H.
  apply extract_fields in H as (d & name' & _ & Hn' & _ & ->). simpl.
  destruct (cve_name_of_spec t s0) as [name0 [Hn0 _]].
  unfold cve_name_of in *.
  destruct (Str.contains (py "- ") t).
  - unfold getitem in *.
    destruct (nth_error (Str.split1 (py "- ") t) 1); [|discriminate].
    unfold ret in *. congruence.
  - unfold ret in *. congruence.
Qed.

Example name_of_example_flaw :
  cve_name_of (py "CVE-2024-1234 - Example Flaw") fresh = (Ok (py "Example Flaw"), fresh) /\
  cve_name_of (py "Example-Flaw -") fresh = (Ok (py "N/A"), fresh) /\
  cve_name_of (py "a- b- c") fresh = (Ok (py "b- c"), fresh).
Proof. repeat split. Qed.

(** ** The [re] engine against the language of a pattern *)

Lemma span_firstn (p : ascii -> bool) (s : str) (k : nat) :
  k <= Re.span p s -> all_in p (firstn k s) /\ length (firstn k s) = k.
Proof.
  revert k; induction s as [|c s IH]; intros k Hk; simpl in *.
  - assert (k = 0) as -> by lia. split; [constructor|reflexivity].
  - destruct k as [|k]; [split; [constructor|reflexivity]|].
    destruct (p c) eqn:E; [|lia].
    destruct (IH k) as [H1 H2]; [lia|].
    split; [now constructor|simpl; now rewrite H2].
Qed.

Lemma span_prefix (p : ascii -> bool) (m rest : str) :
  all_in p m -> length m <= Re.span p (m ++ rest).
Proof.
  induction 1 as [|c m Hc _ IH]; simpl; [lia|].
  rewrite Hc. lia.
Qed.

Lemma span_skipn_stops (p : ascii -> bool) (s : str) :
  Re.stops p (skipn (Re.span p s) s).
Proof.
  induction s as [|c s IH]; simpl; [exact I|].
  destruct (p c) eqn:E; simpl; [exact IH|exact E].
Qed.

Lemma firstn_app_length (m rest : str) : firstn (length m) (m ++ rest) = m.
Proof.
  rewrite firstn_app, Nat.sub_diag, firstn_all. simpl. apply app_nil_r.
Qed.

Lemma skipn_app_length (m rest : str) : skipn (length m) (m ++ rest) = rest.
Proof.
  rewrite skipn_app, Nat.sub_diag, skipn_all. reflexivity.
Qed.

Lemma in_cls_matches (p : ascii -> bool) (lo : nat) (hi : option nat) (s m : str)
    (g : Re.captures) :
  In (m, g) (Re.cls_matches p lo hi s) <->
  exists rest, s = m ++ rest /\ Re.denotes (Re.Cls p lo hi) m g.
Proof.
  unfold Re.cls_matches. rewrite in_map_iff. split.
  - intros [k [Hk Hin]]. injection Hk as <- <-.
    apply in_rev, in_seq in Hin.
    assert (Hspan : k <= Re.span p s) by (destruct hi; lia).
    destruct (span_firstn p s k Hspan) as [Hall Hlen].
    exists (skipn k s). split; [now rewrite firstn_skipn|].
    constructor; [exact Hall|lia|]. destruct hi; [lia|exact I].
  - intros [rest [-> H]].
    inversion H as [| |? ? ? ? Hall Hlo Hhi| | | |]; subst.
    exists (length m). split; [now rewrite firstn_app_length|].
    apply in_rev. rewrite rev_involutive. apply in_seq.
    pose proof (span_prefix p m rest Hall). destruct hi; lia.
Qed.

(** The engine is sound and complete for the language: its candidates at a
    position are exactly the prefixes in the language of the pattern. *)
Lemma in_matches (r : Re.regex) (s m : str) (g : Re.captures) :
  In (m, g) (Re.matches r s) <->
  exists rest, s = m ++ rest /\ Re.denotes r m g.
Proof.
  revert s m g; induction r as [|c|p lo hi|r1 IH1 r2 IH2|r IH|i r IH];
    intros s m g; simpl.
  - split.
    + intros [H|[]]. injection H as <- <-. exists s. split; [reflexivity|constructor].
    + intros [rest [_ H]]. inversion H; subst. now left.
  - split.
    + destruct s as [|c' s]; [intros []|].
      destruct (Ascii.eqb c' c) eqn:E; [|intros []].
      apply Ascii.eqb_eq in E as ->.
      intros [H|[]]. injection H as <- <-. exists s. split; [reflexivity|constructor].
    + intros [rest [-> H]]. inversion H; subst. simpl.
      rewrite Ascii.eqb_refl. now left.
  - apply in_cls_matches.
  - rewrite in_flat_map. split.
    + intros [[m1 g1] [H1 H2]]. apply in_map_iff in H2 as [[m2 g2] [E H2]].
      unfold Re.glue in E. simpl in *. injection E as <- <-.
      apply IH1 in H1 as [rest1 [-> D1]].
      rewrite skipn_app_length in H2.
      apply IH2 in H2 as [rest2 [-> D2]].
      exists rest2. split; [now rewrite app_assoc|now constructor].
    + intros [rest [-> H]]. inversion H; subst.
      exists (m1, g1). split.
      * apply IH1. exists (m2 ++ rest). split; [now rewrite app_assoc|assumption].
      * apply in_map_iff. exists (m2, g2). split; [reflexivity|].
        simpl. rewrite <- app_assoc, skipn_app_length.
        apply IH2. now exists rest.
  - rewrite in_app_iff. split.
    + intros [H|[H|[]]].
      * apply IH in H as [rest [-> D]]. exists rest. split; [reflexivity|now constructor].
      * injection H as <- <-. exists s. split; [reflexivity|apply Re.D_opt_none].
    + intros [rest [-> H]]. inversion H; subst.
      * left. apply IH. now exists rest.
      * right. now left.
  - rewrite in_map_iff. split.
    + intros [[m' g'] [E H]]. simpl in E. injection E as <- <-.
      apply IH in H as [rest [-> D]]. exists rest. split; [reflexivity|now constructor].
    + intros [rest [-> H]]. inversion H; subst.
      exists (m, g0). split; [reflexivity|]. apply IH. now exists rest.
Qed.

(** [re.search] returns the first candidate of the leftmost position that
    has one, and nothing when no position has one. *)
Lemma search_none (r : Re.regex) (s : str) :
  Re.search r s = None -> forall pre rest, s = pre ++ rest -> Re.matches r rest = [].
Proof.
  induction s as [|c s IH]; simpl.
  - destruct (Re.matches r []) eqn:E; [|discriminate].
    intros _ pre rest H. symmetry in H. apply app_eq_nil in H as [_ ->]. exact E.
  - destruct (Re.matches r (c :: s)) eqn:E; [|discriminate].
    intros H [|c' pre] rest Hs; simpl in Hs.
    + now subst rest.
    + injection Hs as _ Hs. exact (IH H pre rest Hs).
Qed.

Lemma search_some (r : Re.regex) (s : str) (c : Re.candidate) :
  Re.search r s = Some c ->
  exists pre rest tl,
    s = pre ++ rest /\ Re.matches r rest = c :: tl /\
    forall pre' rest', s = pre' ++ rest' -> length pre' < length pre ->
                       Re.matches r rest' = [].
Proof.
  induction s as [|a s IH]; simpl.
  - destruct (Re.matches r []) as [|c0 tl] eqn:E; [discriminate|].
    intros H; injection H as ->. exists [], [], tl.
    repeat split; auto. simpl. intros; lia.
  - destruct (Re.matches r (a :: s)) as [|c0 tl] eqn:E.
    + intros H. destruct (IH H) as (pre & rest & tl & -> & Hm & Hleft).
      exists (a :: pre), rest, tl. repeat split; auto.
      intros [|a' pre'] rest' Hs Hlen; simpl in *.
      * now subst rest'.
      * injection Hs as _ Hs. apply (Hleft pre' rest' Hs). lia.
    + intros H; injection H as ->. exists [], (a :: s), tl.
      repeat split; auto. simpl. intros; lia.
Qed.

Lemma span_app_stops (p : ascii -> bool) (m post : str) :
  all_in p m -> Re.stops p post -> Re.span p (m ++ post) = length m.
Proof.
  intros Hm Hpost. induction Hm as [|c m Hc _ IH]; simpl.
  - destruct post as [|c post]; simpl in *; [reflexivity|now rewrite Hpost].
  - now rewrite Hc, IH.
Qed.

Lemma app_same_length {A} (a a' b b' : list A) :
  length a = length a' -> a ++ b = a' ++ b' -> a = a' /\ b = b'.
Proof.
  revert a'; induction a as [|x a IH]; intros [|x' a'] Hlen E;
    simpl in *; try discriminate.
  - now split.
  - injection E as -> E. injection Hlen as Hlen.
    destruct (IH a' Hlen E) as [-> ->]. now split.
Qed.

(** Two ways of cutting one text into a run of the class [p] and a rest
    that does not go on with [p] are the same. *)
Lemma run_unique (p : ascii -> bool) (m m' post post' : str) :
  all_in p m -> all_in p m' -> Re.stops p post -> Re.stops p post' ->
  m ++ post = m' ++ post' -> m = m' /\ post = post'.
Proof.
  intros Hm Hm' Hp Hp' E.
  assert (Hlen : length m = length m').
  { rewrite <- (span_app_stops p m post Hm Hp),
            <- (span_app_stops p m' post' Hm' Hp'). now rewrite E. }
  now apply app_same_length.
Qed.

Lemma denotes_lit (l m : str) (g : Re.captures) :
  Re.denotes (Re.lit l) m g <-> m = l /\ g = [].
Proof.
  revert m g; induction l as [|c l IH]; intros m g; simpl; split.
  - intros H. inversion H; subst. now split.
  - intros [-> ->]. constructor.
  - intros H. inversion H as [| | |? ? ? ? ? ? H1 H2| | |]; subst.
    inversion H1; subst. apply IH in H2 as [-> ->]. now split.
  - intros [-> ->].
    change (Re.denotes (Re.Cat (Re.Chr c) (Re.lit l)) ([c] ++ l) ([] ++ [])).
    constructor; [constructor|]. now apply IH.
Qed.

Lemma denotes_cve (m : str) (g : Re.captures) :
  Re.denotes cve_pattern m g <-> is_cve_id m /\ g = [].
Proof.
  unfold cve_pattern, is_cve_id. split.
  - intros H.
    inversion H as [| | |? ? ? ? ? ? H1 H2| | |]; subst.
    apply (denotes_lit (py "CVE-")) in H1 as [-> ->].
    inversion H2 as [| | |? ? year ? ? ? H3 H4| | |]; subst.
    inversion H3 as [| |? ? ? ? Hy Hlo Hhi| | | |]; subst.
    inversion H4 as [| | |? ? ? num ? ? H5 H6| | |]; subst.
    inversion H5; subst.
    inversion H6 as [| |? ? ? ? Hn Hlo' _| | | |]; subst.
    split; [|reflexivity].
    exists year, num. repeat split; auto. lia.
  - intros [(year & num & -> & Hy & Hly & Hn & Hln) ->].
    change (@nil (nat * str)) with (@nil (nat * str) ++ ([] ++ ([] ++ []))).
    constructor; [now apply (denotes_lit (py "CVE-"))|].
    constructor; [constructor; auto; lia|].
    constructor; [constructor|].
    constructor; auto.
Qed.

Lemma matches_lit (l s : str) :
  Re.matches (Re.lit l) s = if Str.startswith l s then [(l, [])] else [].
Proof.
  revert s; induction l as [|c l IH]; intros s; simpl; [reflexivity|].
  destruct s as [|c' s]; [reflexivity|].
  rewrite (Ascii.eqb_sym c c').
  destruct (Ascii.eqb c' c); simpl; [|reflexivity].
  rewrite IH. destruct (Str.startswith l s); reflexivity.
Qed.

Lemma matches_cat_one (r1 r2 : Re.regex) (s : str) (c1 : Re.candidate) :
  Re.matches r1 s = [c1] ->
  Re.matches (Re.Cat r1 r2) s =
  map (Re.glue c1) (Re.matches r2 (skipn (length (fst c1)) s)).
Proof. intros H. simpl. rewrite H. simpl. apply app_nil_r. Qed.

Lemma matches_cat_none (r1 r2 : Re.regex) (s : str) :
  Re.matches r1 s = [] -> Re.matches (Re.Cat r1 r2) s = [].
Proof. intros H. simpl. now rewrite H. Qed.

Lemma cls_matches_exact (p : ascii -> bool) (n : nat) (s : str) :
  Re.cls_matches p n (Some n) s =
  if n <=? Re.span p s then [(firstn n s, [])] else [].
Proof.
  unfold Re.cls_matches. destruct (n <=? Re.span p s) eqn:E.
  - apply Nat.leb_le in E. rewrite Nat.min_l by exact E.
    replace (S n - n) with 1 by lia. reflexivity.
  - apply Nat.leb_gt in E. rewrite Nat.min_r by lia.
    replace (S (Re.span p s) - n) with 0 by lia. reflexivity.
Qed.

(** A class repeated without upper bound is tried longest run first. *)
Lemma cls_matches_greedy (p : ascii -> bool) (lo : nat) (s : str)
    (c : Re.candidate) (tl : list Re.candidate) :
  Re.cls_matches p lo None s = c :: tl ->
  c = (firstn (Re.span p s) s, []).
Proof.
  unfold Re.cls_matches.
  destruct (S (Re.span p s) - lo) as [|k] eqn:E; [discriminate|].
  rewrite seq_S, rev_app_distr. simpl.
  intros H; injection H as <- _.
  replace (lo + k) with (Re.span p s) by lia. reflexivity.
Qed.

Lemma map_cons_inv {A B} (f : A -> B) (l : list A) (y : B) (tl : list B) :
  map f l = y :: tl -> exists x l', l = x :: l' /\ y = f x.
Proof.
  destruct l as [|x l']; simpl; [discriminate|].
  intros H; injection H as <- _. now exists x, l'.
Qed.

(** The first candidate for [cve_pattern] takes every digit in reach. *)
Lemma cve_first_candidate (s m : str) (g : Re.captures) (tl : list Re.candidate) :
  Re.matches cve_pattern s = (m, g) :: tl ->
  exists post, s = m ++ post /\ Re.stops Str.isdecimal post.
Proof.
  unfold cve_pattern. intros H.
  destruct (Str.startswith (py "CVE-") s) eqn:E1.
  2:{ rewrite matches_cat_none in H; [discriminate|].
      now rewrite matches_lit, E1. }
  apply startswith_inv in E1 as [s1 ->].
  rewrite (matches_cat_one _ _ _ (py "CVE-", [])) in H
    by (now rewrite matches_lit, startswith_app).
  apply map_cons_inv in H as ([m2 g2] & tl2 & H & E). injection E as -> ->.
  cbn [fst] in H. rewrite skipn_app_length in H.
  destruct (4 <=? Re.span Str.isdecimal s1) eqn:E2.
  2:{ rewrite matches_cat_none in H; [discriminate|].
      simpl. now rewrite cls_matches_exact, E2. }
  remember (firstn 4 s1) as year eqn:Ey.
  assert (Hlen : length year = 4).
  { subst year. apply Nat.leb_le in E2.
    now destruct (span_firstn Str.isdecimal s1 4 E2). }
  rewrite (matches_cat_one _ _ _ (year, [])) in H
    by (simpl; now rewrite cls_matches_exact, E2, Ey).
  apply map_cons_inv in H as ([m3 g3] & tl3 & H & E). injection E as -> ->.
  cbn [fst] in H. rewrite Hlen in H.
  assert (Hs1 : s1 = year ++ skipn 4 s1)
    by (now rewrite Ey, firstn_skipn).
  destruct (skipn 4 s1) as [|c s3] eqn:E3;
    [rewrite matches_cat_none in H; [discriminate|reflexivity]|].
  destruct (Ascii.eqb c "-") eqn:E4.
  2:{ rewrite matches_cat_none in H; [discriminate|]. simpl. now rewrite E4. }
  apply Ascii.eqb_eq in E4 as ->.
  rewrite (matches_cat_one _ _ _ (py "-", [])) in H by reflexivity.
  apply map_cons_inv in H as ([m4 g4] & tl4 & H & E). injection E as -> ->.
  cbn [fst] in H. change (skipn (length (py "-")) ("-"%char :: s3)) with s3 in H.
  change (Re.matches (Re.Cls Str.isdecimal 4 None) s3)
    with (Re.cls_matches Str.isdecimal 4 None s3) in H.
  apply cls_matches_greedy in H. injection H as -> ->.
  exists (skipn (Re.span Str.isdecimal s3) s3). split.
  - unfold Re.glue. cbn [fst].
    rewrite Hs1 at 1.
    rewrite <- (firstn_skipn (Re.span Str.isdecimal s3) s3) at 1.
    simpl. rewrite <- app_assoc. reflexivity.
  - apply span_skipn_stops.
Qed.

(** ** The identifier of an entry *)

Lemma cve_candidate (m post : str) :
  is_cve_id m -> In (m, []) (Re.matches cve_pattern (m ++ post)).
Proof.
  intros H. apply in_matches. exists post. split; [reflexivity|].
  now apply denotes_cve.
Qed.

Lemma cve_number_unmatched (t : str) :
  (forall pre m post, t = pre ++ m ++ post -> ~ is_cve_id m) <->
  Re.search cve_pattern t = None.
Proof.
  split.
  - intros Hno. destruct (Re.search cve_pattern t) as [[m g]|] eqn:S; [|reflexivity].
    apply search_some in S as (pre & rest & tl & -> & Hm & _).
    assert (Hin : In (m, g) (Re.matches cve_pattern rest)) by (rewrite Hm; now left).
    apply in_matches in Hin as [post [-> D]]. apply denotes_cve in D as [Hid _].
    now destruct (Hno pre m post eq_refl).
  - intros S pre m post E Hid.
    pose proof (cve_candidate m post Hid) as Hin.
    now rewrite (search_none _ _ S pre (m ++ post) E) in Hin.
Qed.

Lemma cve_longest (m post m' post' : str) :
  is_cve_id m -> Re.stops Str.isdecimal post ->
  m ++ post = m' ++ post' -> is_cve_id m' -> length m' <= length m.
Proof.
  intros (y & n & -> & Hy & Hly & Hn & Hln) Hstop E
         (y' & n' & -> & Hy' & Hly' & Hn' & Hln').
  rewrite <- !app_assoc in E. apply app_inv_head in E.
  apply app_same_length in E as [-> E]; [|congruence].
  apply app_inv_head in E.
  pose proof (span_prefix Str.isdecimal n' post' Hn') as Hle.
  rewrite <- E, (span_app_stops Str.isdecimal n post Hn Hstop) in Hle.
  rewrite !length_app. lia.
Qed.

(** C4. The identifier of an entry is the leftmost part of its title that
    reads [CVE-], four digits, [-], four digits or more, taken with all the
    digits that follow; a title of which no part reads so gets "N/A". *)
Theorem cve_number_is_first_match (t : str) :
  cve_number_spec t (cve_number_of t).
Proof.
  unfold cve_number_spec, cve_number_of.
  destruct (Re.search cve_pattern t) as [[m g]|] eqn:S.
  - left. apply search_some in S as (pre & rest & tl & -> & Hm & Hleft).
    destruct (cve_first_candidate rest m g tl Hm) as [post [-> Hstop]].
    assert (Hin : In (m, g) (Re.matches cve_pattern (m ++ post)))
      by (rewrite Hm; now left).
    apply in_matches in Hin as [post0 [_ D]]. apply denotes_cve in D as [Hid _].
    exists pre, post. simpl. repeat split; auto.
    + intros pre' m' post' E Hid'.
      destruct (Nat.le_gt_cases (length pre) (length pre')) as [Hle|Hgt];
        [exact Hle|exfalso].
      pose proof (cve_candidate m' post' Hid') as Hin.
      now rewrite (Hleft pre' (m' ++ post') E Hgt) in Hin.
    + intros m' post' E Hid'. exact (cve_longest m post m' post' Hid Hstop E Hid').
  - right. split; [|reflexivity]. now apply cve_number_unmatched.
Qed.

Example cve_number_examples :
  cve_number_of (py "CVE-2024-1234 - Example Flaw") = py "CVE-2024-1234" /\
  cve_number_of (py "Fix for CVE-2023-123 and CVE-2023-4567890, CVE-2022-0001")
    = py "CVE-2023-4567890" /\
  cve_number_of (py "cve-2024-1234 in lower case") = py "N/A".
Proof. repeat split. Qed.

(** ** The severity of an entry *)

Lemma decimal_not_space (c : ascii) : Str.isdecimal c = true -> Str.isspace c = false.
Proof.
  unfold Str.isdecimal, Str.isspace, Str.between.
  rewrite andb_true_iff, !Nat.leb_le. intros [H1 H2].
  rewrite !orb_false_iff, !andb_false_iff, !Nat.leb_gt, !Nat.eqb_neq. lia.
Qed.

Lemma space_not_decimal (c : ascii) : Str.isspace c = true -> Str.isdecimal c = false.
Proof.
  intros H. destruct (Str.isdecimal c) eqn:E; [|reflexivity].
  apply decimal_not_space in E. congruence.
Qed.

Lemma stops_run (p q : ascii -> bool) (m rest : str) :
  all_in q m -> 1 <= length m -> (forall c, q c = true -> p c = false) ->
  Re.stops p (m ++ rest).
Proof.
  intros Hm Hlen Hpq. destruct Hm as [|c m Hc _]; simpl in *; [lia|]. now apply Hpq.
Qed.

(** Blanks and then a bar do not go on with a digit. *)
Lemma stops_blanks_bar (ws rest : str) :
  all_in Str.isspace ws -> Re.stops Str.isdecimal (ws ++ py "|" ++ rest).
Proof.
  intros [|c ws' Hc _]; simpl; [reflexivity|]. now apply space_not_decimal.
Qed.

Lemma number_shape (g : str) (caps : Re.captures) :
  Re.denotes (Re.Cat (Re.Cls Str.isdecimal 1 None)
                (Re.Opt (Re.Grp 2 (Re.Cat (Re.Chr ".") (Re.Cls Str.isdecimal 1 None)))))
             g caps ->
  is_number g.
Proof.
  intros H. unfold is_number.
  inversion H as [| | |? ? int frac ? ? H1 H2| | |]; subst; clear H.
  inversion H1 as [| |? ? ? ? Hint Hlint _| | | |]; subst; clear H1.
  exists int, frac. repeat split; auto.
  inversion H2 as [| | | |? ? ? H3| |]; subst; clear H2; [|now left].
  inversion H3 as [| | | | | |? ? ? ? H4]; subst; clear H3.
  inversion H4 as [| | |? ? ? dec ? ? H5 H6| | |]; subst; clear H4.
  inversion H5; subst; clear H5.
  inversion H6 as [| |? ? ? ? Hdec Hldec _| | | |]; subst; clear H6.
  right. exists dec. repeat split; auto.
Qed.

Lemma severity_shape (m : str) (caps : Re.captures) :
  Re.denotes severity_pattern m caps ->
  exists g, is_severity m g /\ Re.lookup 1 caps = Some g.
Proof.
  unfold severity_pattern, Re.star, Re.plus. intros H.
  inversion H as [| | |? ? ? ? ? ? H1 H2| | |]; subst; clear H.
  apply (denotes_lit (py "Severity:")) in H1 as [-> ->].
  inversion H2 as [| | |? ? ? ? ? ? H3 H4| | |]; subst; clear H2.
  inversion H3 as [| |? ? ? ? Hws1 _ _| | | |]; subst; clear H3.
  inversion H4 as [| | |? ? ? ? ? ? H5 H6| | |]; subst; clear H4.
  inversion H5 as [| | | | | |? ? ? ? H7]; subst; clear H5.
  apply number_shape in H7.
  inversion H6 as [| | |? ? ? ? ? ? H8 H9| | |]; subst; clear H6.
  inversion H8 as [| |? ? ? ? Hws2 _ _| | | |]; subst; clear H8.
  inversion H9 as [| | |? ? ? ? ? ? H10 H11| | |]; subst; clear H9.
  inversion H10; subst; clear H10.
  inversion H11 as [| | |? ? ? ? ? ? H12 H13| | |]; subst; clear H11.
  inversion H12 as [| |? ? ? ? Hws3 _ _| | | |]; subst; clear H12.
  inversion H13 as [| | | | | |? ? ? ? H14]; subst; clear H13.
  inversion H14 as [| |? ? ? ? Hlabel Hlen _| | | |]; subst; clear H14.
  eexists. split; [|reflexivity].
  unfold is_severity. do 4 eexists.
  split; [reflexivity|]. repeat split; assumption.
Qed.

Lemma severity_candidate (m g post : str) :
  is_severity m g ->
  exists caps, In (m, caps) (Re.matches severity_pattern (m ++ post)).
Proof.
  intros (ws1 & ws2 & ws3 & label & -> & Hws1 & Hg & Hws2 & Hws3 & Hlabel & Hlen).
  destruct Hg as (int & frac & -> & Hint & Hlint & Hfrac).
  assert (Hnum : exists gN,
    Re.denotes (Re.Cat (Re.plus Str.isdecimal)
                  (Re.Opt (Re.Grp 2 (Re.Cat (Re.Chr ".") (Re.plus Str.isdecimal)))))
               (int ++ frac) gN).
  { destruct Hfrac as [->|(dec & -> & Hdec & Hldec)].
    - eexists. constructor; [now constructor|apply Re.D_opt_none].
    - eexists. constructor; [now constructor|].
      apply Re.D_opt_some. constructor.
      change (py "." ++ dec) with ([("."%char : ascii)] ++ dec).
      constructor; [constructor|now constructor]. }
  destruct Hnum as [gN Hnum].
  eexists. apply in_matches. exists post. split; [reflexivity|].
  unfold severity_pattern.
  constructor; [apply (denotes_lit (py "Severity:")); split; reflexivity|].
  constructor; [constructor; auto; lia|].
  constructor; [constructor; exact Hnum|].
  constructor; [constructor; auto; lia|].
  constructor; [apply Re.D_chr|].
  constructor; [constructor; auto; lia|].
  constructor. now constructor.
Qed.

(** All the texts that read as a severity from one position on carry the
    same number. *)
Lemma severity_number_unique (m g post m' g' post' : str) :
  is_severity m g -> is_severity m' g' -> m ++ post = m' ++ post' -> g' = g.
Proof.
  intros (ws1 & ws2 & ws3 & label & -> & Hws1 & Hg & Hws2 & _)
         (ws1' & ws2' & ws3' & label' & -> & Hws1' & Hg' & Hws2' & _) E.
  destruct Hg as (int & frac & -> & Hint & Hlint & Hfrac).
  destruct Hg' as (int' & frac' & -> & Hint' & Hlint' & Hfrac').
  rewrite <- !app_assoc in E. apply app_inv_head in E.
  apply (run_unique Str.isspace) in E as [_ E]; auto;
    try (apply (stops_run Str.isspace Str.isdecimal); auto using decimal_not_space).
  assert (Hstop : forall f w rest,
            (f = [] \/ exists dec, f = py "." ++ dec /\ all_in Str.isdecimal dec /\
                                   1 <= length dec) ->
            all_in Str.isspace w ->
            Re.stops Str.isdecimal (f ++ w ++ py "|" ++ rest)).
  { intros f w rest [->|(dec & -> & _)] Hw; [now apply stops_blanks_bar|reflexivity]. }
  apply (run_unique Str.isdecimal) in E as [<- E]; auto.
  f_equal.
  destruct Hfrac as [->|(dec & -> & Hdec & Hldec)];
    destruct Hfrac' as [->|(dec' & -> & Hdec' & Hldec')].
  - reflexivity.
  - exfalso. simpl in E. destruct Hws2 as [|c ws Hc _]; simpl in E.
    + discriminate.
    + injection E as -> _. discriminate.
  - exfalso. simpl in E. destruct Hws2' as [|c ws Hc _]; simpl in E.
    + discriminate.
    + injection E as <- _. discriminate.
  - simpl in E. injection E as E.
    apply (run_unique Str.isdecimal) in E as [<- _]; auto.
    + exact (stops_blanks_bar ws2 _ Hws2).
    + exact (stops_blanks_bar ws2' _ Hws2').
Qed.

(** C6. The severity of a record is the number of the leftmost part of
    its description that reads [Severity:], blanks, a number, blanks, a bar,
    blanks and a word, as written there; it is [None] when no part of the
    description reads so.  The description it is computed from is the
    normalized one the record carries. *)
Theorem severity_is_first_match (d : str) :
  severity_spec d (severity_of d) /\
  forall w t l p n soup s r s',
    extract w t l p n soup s = (Ok r, s') ->
    cve_severity r = severity_of (cve_description r).
Proof.
  split.
  2:{ intros w t l p n soup s r s' H.
      apply extract_fields in H as (d' & name & _ & _ & _ & ->). reflexivity. }
  unfold severity_spec, severity_of.
  destruct (Re.search severity_pattern d) as [[m caps]|] eqn:S.
  - left. apply search_some in S as (pre & rest & tl & -> & Hm & Hleft).
    assert (Hin : In (m, caps) (Re.matches severity_pattern rest))
      by (rewrite Hm; now left).
    apply in_matches in Hin as [post [-> D]].
    apply severity_shape in D as [g [Hsev Hg]].
    exists pre, m, post, g. repeat split; auto.
    + intros pre' m' post' g' E Hsev'.
      destruct (Nat.le_gt_cases (length pre) (length pre')) as [Hle|Hgt];
        [exact Hle|exfalso].
      destruct (severity_candidate m' g' post' Hsev') as [caps' Hin].
      now rewrite (Hleft pre' (m' ++ post') E Hgt) in Hin.
    + intros m' post' g' E Hsev'.
      exact (severity_number_unique m g post m' g' post' Hsev Hsev' E).
  - right. split; [|reflexivity]. intros pre m post g E Hsev.
    destruct (severity_candidate m g post Hsev) as [caps Hin].
    now rewrite (search_none _ _ S pre (m ++ post) E) in Hin.
Qed.

Example severity_examples :
  severity_of (py "Severity: 7.5 | High. Some details.") = Some (py "7.5") /\
  severity_of (py "Severity:10|CRITICAL") = Some (py "10") /\
  severity_of (py "Severity: 7. | High") = None /\
  severity_of (py "severity: 7.5 | High") = None /\
  severity_of (py "Severity: x | Low, then Severity: 9.8 | High") = Some (py "9.8").
Proof. repeat split. Qed.

(** ** The description of an entry *)

Lemma lstrip_blank (l x : str) :
  all_in Str.isspace l -> Str.lstrip (l ++ x) = Str.lstrip x.
Proof. induction 1 as [|c l Hc _ IH]; simpl; [reflexivity|now rewrite Hc]. Qed.

Lemma lstrip_split (s : str) :
  exists l, all_in Str.isspace l /\ s = l ++ Str.lstrip s.
Proof.
  induction s as [|c s [l [Hl E]]]; simpl.
  - exists []. split; [constructor|reflexivity].
  - destruct (Str.isspace c) eqn:Hc.
    + exists (c :: l). split; [now constructor|]. simpl. now f_equal.
    + exists []. split; [constructor|reflexivity].
Qed.

Lemma all_in_rev (p : ascii -> bool) (s : str) : all_in p s -> all_in p (rev s).
Proof. unfold all_in. apply Forall_rev. Qed.

Lemma rstrip_blank (x r : str) :
  all_in Str.isspace r -> Str.rstrip (x ++ r) = Str.rstrip x.
Proof.
  intros Hr. unfold Str.rstrip. rewrite rev_app_distr.
  now rewrite (lstrip_blank (rev r) (rev x) (all_in_rev _ _ Hr)).
Qed.

Lemma rstrip_split (s : str) :
  exists r, all_in Str.isspace r /\ s = Str.rstrip s ++ r.
Proof.
  destruct (lstrip_split (rev s)) as [l [Hl E]].
  exists (rev l). split; [now apply all_in_rev|].
  unfold Str.rstrip. rewrite <- rev_app_distr, <- E. now rewrite rev_involutive.
Qed.

Lemma lstrip_all_blank (l : str) : all_in Str.isspace l -> Str.lstrip l = [].
Proof. induction 1 as [|c l Hc _ IH]; simpl; [reflexivity|now rewrite Hc]. Qed.

Lemma lstrip_app (x r : str) :
  Str.lstrip x <> [] -> Str.lstrip (x ++ r) = Str.lstrip x ++ r.
Proof.
  induction x as [|c x IH]; simpl; [congruence|].
  destruct (Str.isspace c); [exact IH|reflexivity].
Qed.

(** Blanks around a text do not change what [strip] returns. *)
Lemma strip_blanks (l x r : str) :
  all_in Str.isspace l -> all_in Str.isspace r ->
  Str.strip (l ++ x ++ r) = Str.strip x.
Proof.
  intros Hl Hr. unfold Str.strip. rewrite (lstrip_blank l _ Hl).
  destruct (Str.lstrip x) as [|c y] eqn:E.
  - destruct (lstrip_split x) as [lx [Hlx Ex]]. rewrite E, app_nil_r in Ex. subst lx.
    rewrite lstrip_all_blank; [reflexivity|].
    unfold all_in. apply Forall_app. now split.
  - rewrite lstrip_app by (rewrite E; discriminate).
    rewrite E. now apply rstrip_blank.
Qed.

Lemma strip_split (t : str) :
  exists l r, all_in Str.isspace l /\ all_in Str.isspace r /\
              t = l ++ Str.strip t ++ r.
Proof.
  destruct (lstrip_split t) as [l [Hl El]].
  destruct (rstrip_split (Str.lstrip t)) as [r [Hr Er]].
  exists l, r. repeat split; auto. unfold Str.strip. now rewrite <- Er.
Qed.

Lemma replace_blank (ws : str) :
  all_in Str.isspace ws -> all_in Str.isspace (Str.replace newline " " ws).
Proof.
  induction 1 as [|c ws Hc _ IH]; simpl; constructor; auto.
  destruct (Ascii.eqb c newline); [reflexivity|exact Hc].
Qed.

(** Lines 124-125 strip the text of the cell before unescaping it; for an
    [unescape] that leaves surrounding blanks alone the result is that of
    unescaping, replacing newlines and stripping once. *)
Lemma normalize_once (w : world) (t : str) :
  blank_transparent (unescape w) ->
  normalize w t = Str.strip (Str.replace newline " " (unescape w t)).
Proof.
  intros Hu. unfold normalize.
  destruct (strip_split t) as (l & r & Hl & Hr & E).
  rewrite E at 2. rewrite (Hu l (Str.strip t) r Hl Hr).
  unfold Str.replace. rewrite !map_app.
  symmetry. apply strip_blanks; now apply replace_blank.
Qed.

Lemma hd_filter_none {A} (f : A -> bool) (l : list A) :
  hd_error (filter f l) = None <-> forall x, In x l -> f x = false.
Proof.
  induction l as [|a l IH]; simpl.
  - split; [intros _ x []|reflexivity].
  - destruct (f a) eqn:E; simpl.
    + split; [discriminate|]. intros H. rewrite (H a) in E by now left. discriminate.
    + rewrite IH. split.
      * intros H x [<-|Hx]; auto.
      * intros H x Hx. apply H. now right.
Qed.

Lemma hd_filter_first {A} (f : A -> bool) (before after : list A) (x : A) :
  (forall y, In y before -> f y = false) -> f x = true ->
  hd_error (filter f (before ++ x :: after)) = Some x.
Proof.
  intros Hb Hx. induction before as [|y before IH]; simpl.
  - now rewrite Hx.
  - rewrite (Hb y) by now left. apply IH. intros z Hz. apply Hb. now right.
Qed.

Lemma named_is_cell (n : Soup.node) :
  Soup.named (py "td") n = true <-> is_cell n.
Proof.
  unfold is_cell. destruct n as [t|t|m kids]; simpl.
  - split; [discriminate|intros [k H]; discriminate H].
  - split; [discriminate|intros [k H]; discriminate H].
  - rewrite str_eqb_eq. split.
    + intros ->. now exists kids.
    + intros [k H]. now injection H.
Qed.

Lemma not_named_not_cell (n : Soup.node) :
  ~ is_cell n -> Soup.named (py "td") n = false.
Proof.
  intros H. destruct (Soup.named (py "td") n) eqn:E; [|reflexivity].
  apply named_is_cell in E. contradiction.
Qed.

(** The test of [find('td', string='Description')] on one element. *)
Lemma description_cell_test (e : Soup.element) :
  Soup.named (py "td") (Soup.node_of e) &&
  Soup.has_string (Some (py "Description")) (Soup.node_of e) = true <->
  description_cell e.
Proof.
  unfold description_cell, Soup.has_string. rewrite andb_true_iff, named_is_cell.
  destruct (Soup.string (Soup.node_of e)) as [u|].
  - rewrite str_eqb_eq. split; intros [H1 H2]; split; congruence.
  - split; intros [H1 H2]; discriminate.
Qed.

Lemma not_description_cell_test (e : Soup.element) :
  ~ description_cell e ->
  Soup.named (py "td") (Soup.node_of e) &&
  Soup.has_string (Some (py "Description")) (Soup.node_of e) = false.
Proof.
  intros H.
  destruct (Soup.named (py "td") (Soup.node_of e) &&
            Soup.has_string (Some (py "Description")) (Soup.node_of e)) eqn:E;
    [|reflexivity].
  apply description_cell_test in E. contradiction.
Qed.

(** [find] returns nothing exactly on the pages without such a cell, and
    otherwise the first of them in document order. *)
Lemma find_no_description_cell (soup : list Soup.node) :
  (forall e, In e (Soup.walk_all soup) -> ~ description_cell e) ->
  Soup.find (py "td") (Some (py "Description")) soup = None.
Proof.
  intros H. unfold Soup.find, Soup.find_all. apply hd_filter_none.
  intros e He. apply not_description_cell_test. now apply H.
Qed.

Lemma find_first_description_cell (soup : list Soup.node)
    (before after : list Soup.element) (cell : Soup.element) :
  Soup.walk_all soup = before ++ cell :: after ->
  (forall e, In e before -> ~ description_cell e) ->
  description_cell cell ->
  Soup.find (py "td") (Some (py "Description")) soup = Some cell.
Proof.
  intros Hwalk Hbefore Hcell. unfold Soup.find, Soup.find_all. rewrite Hwalk.
  apply hd_filter_first.
  - intros e He. apply not_description_cell_test. now apply Hbefore.
  - now apply description_cell_test.
Qed.

(** [find_next_sibling('td')] returns the first [td] among the siblings
    that follow. *)
Lemma next_sibling_cell (cell : Soup.element) (pre post : list Soup.node)
    (sibling : Soup.node) :
  Soup.following cell = pre ++ sibling :: post ->
  (forall n, In n pre -> ~ is_cell n) ->
  is_cell sibling ->
  Soup.find_next_sibling (py "td") cell =
  Some {| Soup.node_of := sibling; Soup.following := post |}.
Proof.
  unfold Soup.find_next_sibling. intros -> Hpre Hsib.
  induction pre as [|n pre IH]; cbn [app Soup.next_named].
  - apply named_is_cell in Hsib. now rewrite Hsib.
  - rewrite (not_named_not_cell n) by (apply Hpre; now left).
    apply IH. intros m Hm. apply Hpre. now right.
Qed.

Lemma lstrip_head (s : str) (c : ascii) (s' : str) :
  Str.lstrip s = c :: s' -> Str.isspace c = false.
Proof.
  induction s as [|a s IH]; simpl; [discriminate|].
  destruct (Str.isspace a) eqn:Ha; [exact IH|].
  intros H; injection H as <- _. exact Ha.
Qed.

Lemma replace_spaces_newlines (t : str) :
  newlines_spaced t (Str.replace newline " " t).
Proof.
  unfold newlines_spaced, Str.replace.
  induction t as [|c t IH]; simpl; constructor; auto.
Qed.

Lemma strip_trimmed (t : str) : trimmed t (Str.strip t).
Proof.
  destruct (strip_split t) as (l & r & Hl & Hr & E).
  exists l, r. repeat split; auto.
  - intros c d' Hd. unfold Str.strip in Hd.
    destruct (rstrip_split (Str.lstrip t)) as [r' [_ Er]].
    rewrite Hd in Er. simpl in Er. exact (lstrip_head t c _ Er).
  - intros d' c Hd. unfold Str.strip, Str.rstrip in Hd.
    apply (f_equal (@rev ascii)) in Hd.
    rewrite rev_involutive, rev_app_distr in Hd. simpl in Hd.
    exact (lstrip_head _ c _ Hd).
Qed.

(** The two relations say what [replace] and [strip] compute, and nothing
    else does. *)
Lemma newlines_spaced_replace (t d : str) :
  newlines_spaced t d -> d = Str.replace newline " " t.
Proof.
  unfold newlines_spaced, Str.replace.
  induction 1 as [|c c' t d Hc _ IH]; simpl; [reflexivity|]. now rewrite Hc, IH.
Qed.

Lemma trimmed_strip (t d : str) : trimmed t d -> d = Str.strip t.
Proof.
  intros (l & r & -> & Hl & Hr & Hfirst & Hlast).
  rewrite (strip_blanks l d r Hl Hr). unfold Str.strip, Str.rstrip.
  assert (E1 : Str.lstrip d = d).
  { destruct d as [|c d']; simpl; [reflexivity|].
    now rewrite (Hfirst c d' eq_refl). }
  rewrite E1.
  assert (E2 : Str.lstrip (rev d) = rev d).
  { destruct (rev d) as [|c y] eqn:E; simpl; [reflexivity|].
    apply (f_equal (@rev ascii)) in E. rewrite rev_involutive in E. simpl in E.
    now rewrite (Hlast (rev y) c E). }
  now rewrite E2, rev_involutive.
Qed.

Lemma description_spec_once (w : world) (t : str) :
  description_spec w t (Str.strip (Str.replace newline " " (unescape w t))).
Proof.
  exists (Str.replace newline " " (unescape w t)).
  split; [apply replace_spaces_newlines|apply strip_trimmed].
Qed.

(** C5, as the script has it.  The cell that counts is a [td] whose
    [.string] is "Description".  On a page without such a cell the
    description is the literal "Description not available.".  On a page
    that has such cells, the first of them in document order being
    followed by [td] siblings, the description is computed from the text
    of the first of these siblings: that text trimmed, then unescaped, its
    newlines replaced by spaces, and trimmed.  For an [html.unescape] that
    leaves the blanks around a text where they are, this is the text of
    the sibling unescaped, with spaces for newlines, and trimmed.  The
    description of the record is the one so computed. *)
Theorem description_is_normalized_sibling (w : world) (soup : list Soup.node)
    (s : state) :
  ((forall e, In e (Soup.walk_all soup) -> ~ description_cell e) ->
   clean_description_of w soup s = (Ok (py "Description not available."), s)) /\
  (forall before cell after pre sibling post,
     Soup.walk_all soup = before ++ cell :: after ->
     (forall e, In e before -> ~ description_cell e) ->
     description_cell cell ->
     Soup.following cell = pre ++ sibling :: post ->
     (forall n, In n pre -> ~ is_cell n) ->
     is_cell sibling ->
     exists d,
       clean_description_of w soup s = (Ok d, s) /\
       (exists t, trimmed (Soup.text sibling) t /\ description_spec w t d) /\
       (blank_transparent (unescape w) ->
        description_spec w (Soup.text sibling) d)) /\
  (forall t l p n r s',
     extract w t l p n soup s = (Ok r, s') ->
     clean_description_of w soup s = (Ok (cve_description r), s)).
Proof.
  split; [|split].
  - intros Hno. unfold clean_description_of.
    now rewrite (find_no_description_cell soup Hno).
  - intros before cell after pre sibling post Hwalk Hbefore Hcell Hfol Hpre Hsib.
    exists (normalize w (Soup.text sibling)). split; [|split].
    + unfold clean_description_of.
      rewrite (find_first_description_cell soup before after cell Hwalk Hbefore Hcell).
      unfold bind.
      now rewrite (next_sibling_cell cell pre post sibling Hfol Hpre Hsib).
    + exists (Str.strip (Soup.text sibling)).
      split; [apply strip_trimmed|apply description_spec_once].
    + intros Hu. rewrite (normalize_once w _ Hu). apply description_spec_once.
  - intros t l p n r s' H.
    apply extract_fields in H as (d & name & Hd & _ & _ & ->). exact Hd.
Qed.

Lemma description_is_normalized_sibling_witness :
  exists d,
    clean_description_of Example.one_new_entry Example.flaw_page fresh =
      (Ok d, fresh) /\
    description_spec Example.one_new_entry (py "
   Severity: 7.5 | High. Some details.  ") d.
Proof.
  assert (Hu : blank_transparent (unescape Example.one_new_entry))
    by (intros l x r _ _; reflexivity).
  destruct (description_is_normalized_sibling Example.one_new_entry
              Example.flaw_page fresh) as (_ & H & _).
  destruct (H (firstn 4 (Soup.walk_all Example.flaw_page))
              {| Soup.node_of := Example.td "Description";
                 Soup.following := [Example.td "
   Severity: 7.5 | High. Some details.  "] |}
              (skipn 5 (Soup.walk_all Example.flaw_page))
              [] (Example.td "
   Severity: 7.5 | High. Some details.  ") [])
    as (d & Hd & _ & Hspec).
  - reflexivity.
  - intros e He [[kids Hk] _]. simpl in He.
    repeat (destruct He as [<-|He]; [discriminate Hk|]). destruct He.
  - split; [now eexists|reflexivity].
  - reflexivity.
  - intros n [].
  - now eexists.
  - exists d. split; [exact Hd|exact (Hspec Hu)].
Defined.

(** On that page the description is the text of the cell, trimmed. *)
Example scenario_description :
  clean_description_of Example.one_new_entry Example.flaw_page fresh =
  (Ok (py "Severity: 7.5 | High. Some details."), fresh).
Proof. reflexivity. Qed.

(** Away from the lonely cell extraction does return a record: when the
    page has no cell labelled "Description", or the first one is followed
    by a cell. *)
Lemma extract_returns (w : world) (t l p n : str) (soup : list Soup.node) (s : state) :
  match Soup.find (py "td") (Some (py "Description")) soup with
  | Some cell => Soup.find_next_sibling (py "td") cell <> None
  | None => True
  end ->
  exists r, extract w t l p n soup s = (Ok r, s).
Proof.
  intros H. unfold extract, bind at 1, clean_description_of.
  destruct (cve_name_of_spec t s) as [name [Hn _]].
  destruct (Soup.find (py "td") (Some (py "Description")) soup) as [cell|].
  - unfold bind at 1.
    destruct (Soup.find_next_sibling (py "td") cell) as [sib|]; [|congruence].
    simpl. unfold bind. rewrite Hn. eexists. reflexivity.
  - unfold ret at 1. unfold bind. rewrite Hn. eexists. reflexivity.
Qed.

(** The cell [find('td', string='Description')] looks for is one whose
    [.string] is "Description"; a cell that only reads so as a whole is not
    found. *)
Example scenario_split_label (w : world) (s : state) :
  map (fun cell => Soup.text (Soup.node_of cell)) (cells Example.split_label_page) =
    [py "Description"; py "Severity: 9.8 | Critical"] /\
  clean_description_of w Example.split_label_page s =
    (Ok (py "Description not available."), s).
Proof. split; reflexivity. Qed.

(** C5 fails as stated, in both halves: a cell whose text equals
    "Description" is neither needed nor enough.  On the first page a cell
    reads "Description" as a whole, in two pieces, and the cell after it has
    a text: the description is the fallback literal all the same.  On the
    second page no cell has the text "Description" (the word stands in a
    comment), and the description is not the fallback literal but the text
    of the second cell. *)
Theorem cell_text_is_not_the_criterion :
  (exists cell,
     In cell (Soup.walk_all Example.split_label_page) /\
     is_cell (Soup.node_of cell) /\
     Soup.text (Soup.node_of cell) = py "Description" /\
     Soup.following cell = [Example.td "Severity: 9.8 | Critical"] /\
     clean_description_of Example.one_new_entry Example.split_label_page fresh =
       (Ok (py "Description not available."), fresh)) /\
  (forall cell,
     In cell (Soup.walk_all Example.comment_label_page) ->
     is_cell (Soup.node_of cell) ->
     Soup.text (Soup.node_of cell) <> py "Description") /\
  clean_description_of Example.one_new_entry Example.comment_label_page fresh =
    (Ok (py "Severity: 9.8 | Critical"), fresh).
Proof.
  split; [|split].
  - exists {| Soup.node_of :=
                Soup.Tag (py "td") [Soup.Text (py "Desc");
                                    Soup.Tag (py "b") [Soup.Text (py "ription")]];
              Soup.following := [Example.td "Severity: 9.8 | Critical"] |}.
    repeat split.
    + simpl. tauto.
    + now eexists.
  - intros cell Hin _. simpl in Hin.
    repeat (destruct Hin as [<-|Hin]; [discriminate|]). destruct Hin.
  - reflexivity.
Qed.

(** ** Entries without an identifier *)

Lemma unique_key_rows (k : str) (t : list cve) :
  NoDup (map cve_number t) ->
  length (filter (fun r => Str.eqb (cve_number r) k) t) <= 1.
Proof.
  induction t as [|r t IH]; simpl; [lia|].
  intros H. inversion H as [|? ? Hnot Hrest]; subst.
  destruct (Str.eqb (cve_number r) k) eqn:E; [|now apply IH].
  apply str_eqb_eq in E. simpl.
  assert (Hnone : filter (fun r0 => Str.eqb (cve_number r0) k) t = []).
  { destruct (filter _ t) as [|r' tl] eqn:F; [reflexivity|exfalso].
    assert (Hin : In r' (r' :: tl)) by now left.
    rewrite <- F in Hin. apply filter_In in Hin as [Hin Hk].
    apply str_eqb_eq in Hk. apply Hnot. rewrite E, <- Hk. now apply in_map. }
  rewrite Hnone. simpl. lia.
Qed.

(** C10, as the script has it. The table never holds more than one row
    under "N/A".  Once it holds one, an entry whose title has no part that
    reads as a CVE identifier never changes the table; and when the
    existence check itself goes through, the entry is skipped on the line
    "N/A already exists. Skipping." with no request made and no [INSERT]
    attempted. *)
Theorem unmatched_entries_share_one_row (w : world) (s : state) :
  reachable w s ->
  length (rows_of (py "N/A") s) <= 1 /\
  forall item e,
    entry_of item = Some e ->
    (forall pre m post, title e = pre ++ m ++ post -> ~ is_cve_id m) ->
    stored (py "N/A") s = true ->
    db (snd (process_item w item s)) = db s /\
    (statement_runs (disk w (db_calls s)) = true ->
     process_item w item s = (Ok tt, printed (Skipping (py "N/A")) (ticked s))).
Proof.
  intros Hs. split.
  - apply unique_key_rows. exact (reachable_unique_keys w s Hs).
  - intros item e He Hno Hk.
    assert (Hna : cve_number_of (title e) = py "N/A").
    { unfold cve_number_of.
      now rewrite (proj1 (cve_number_unmatched (title e)) Hno). }
    rewrite (process_item_entry w item e s He).
    rewrite <- Hna in Hk |- *.
    exact (process_entry_known w (title e) (link e) (pub_date e) s Hk).
Qed.

Lemma kernel_update_has_no_cve (pre m post : str) :
  py "Kernel update - several fixes" = pre ++ m ++ post -> ~ is_cve_id m.
Proof. now apply cve_number_unmatched. Qed.

Lemma unmatched_entries_share_one_row_witness :
  length (rows_of (py "N/A") (snd (main (Example.notices []) fresh))) <= 1 /\
  db (snd (process_item (Example.notices []) Example.notice_b_item
             (snd (main (Example.notices []) fresh)))) =
  db (snd (main (Example.notices []) fresh)).
Proof.
  assert (H : reachable (Example.notices []) (snd (main (Example.notices []) fresh))).
  { change (snd (main (Example.notices []) fresh))
      with (perform (Example.notices []) Run
              (perform (Example.notices []) Create_table fresh)).
    do 2 apply reach_call. apply reach_fresh. }
  destruct (unmatched_entries_share_one_row _ _ H) as [H1 H2].
  split; [exact H1|].
  exact (proj1 (H2 Example.notice_b_item Example.notice_b_entry eq_refl
                   kernel_update_has_no_cve eq_refl)).
Defined.

(** C10 fails as stated when the existence check itself fails.  A feed of
    two notices without identifier, the database locked during the check of
    the second: the first is stored under "N/A"; the second is not skipped,
    its page is requested and its [INSERT] is refused by the primary key. *)
Lemma failed_check_refetches_unmatched_entry :
  snd (main (Example.notices Example.second_check_fails) fresh) =
  {| db := Some [{| cve_number := py "N/A";
                    cve_name := py "N/A";
                    cve_description := py "Description not available.";
                    cve_pubdate := py "Wed, 03 Jan 2024 00:00:00 +0000";
                    cve_link := py "https://cvefeed.io/vuln/detail/a";
                    cve_severity := None |}];
     db_calls := 5;
     fetched := [url; py "https://cvefeed.io/vuln/detail/a";
                 py "https://cvefeed.io/vuln/detail/b"];
     stdout := [Table_ready; Inserted (py "N/A"); Processed (py "N/A");
                Error_checking Sqlite.OperationalError;
                Error_inserting Sqlite.IntegrityError] |}.
Proof. vm_compute. reflexivity. Qed.

(** With no database fault the second notice is skipped and its page is
    left alone. *)
Example scenario_two_notices :
  snd (main (Example.notices []) fresh) =
  {| db := Some [{| cve_number := py "N/A";
                    cve_name := py "N/A";
                    cve_description := py "Description not available.";
                    cve_pubdate := py "Wed, 03 Jan 2024 00:00:00 +0000";
                    cve_link := py "https://cvefeed.io/vuln/detail/a";
                    cve_severity := None |}];
     db_calls := 4;
     fetched := [url; py "https://cvefeed.io/vuln/detail/a"];
     stdout := [Table_ready; Inserted (py "N/A"); Processed (py "N/A");
                Skipping (py "N/A")] |}.
Proof. vm_compute. reflexivity. Qed.

(** ** Running the loop again *)

Lemma cve_exists_runs (w : world) (k : str) (s : state) (rows : list cve) :
  statement_runs (disk w (db_calls s)) = true ->
  db s = Some rows ->
  cve_exists w k s = (Ok (Sqlite.has_key k rows), ticked s).
Proof.
  unfold cve_exists, bind at 1, get_db_connection. intros Hd Hdb.
  destruct (disk w (db_calls s)); try discriminate;
    unfold bind, execute_select, tick, ret; simpl; now rewrite Hdb.
Qed.

Lemma insert_new (w : world) (r : cve) (s : state) (rows : list cve) :
  disk w (db_calls s) = NoFault ->
  db s = Some rows ->
  Sqlite.has_key (cve_number r) rows = false ->
  exists s', insert_cve_to_db w r s = (Ok true, s') /\
             db s' = Some (rows ++ [r]).
Proof.
  intros Hd Hdb Hk.
  unfold insert_cve_to_db, bind at 1, get_db_connection. rewrite Hd.
  unfold bind, snapshot, execute_insert, commit, tick, print, ret. simpl.
  rewrite Hdb. simpl. rewrite Hk. simpl. eexists. split; reflexivity.
Qed.

Lemma has_key_app (k : str) (rows more : list cve) :
  Sqlite.has_key k rows = true -> Sqlite.has_key k (rows ++ more) = true.
Proof.
  unfold Sqlite.has_key. rewrite existsb_app. now intros ->.
Qed.

Lemma stored_after_insert (k : str) (r : cve) (d : Sqlite.database) :
  Sqlite.has_key k (Sqlite.rows d) = true ->
  Sqlite.has_key k (Sqlite.rows (fst (Sqlite.insert r d))) = true.
Proof.
  intros H. destruct (insert_rows r d) as [E|[_ E]]; rewrite E;
    [exact H|now apply has_key_app].
Qed.

Lemma table_after_insert (r : cve) (d : Sqlite.database) :
  d <> None -> fst (Sqlite.insert r d) <> None.
Proof.
  destruct d as [rows|]; [|congruence]. intros _. simpl.
  destruct (Sqlite.has_key (cve_number r) rows); discriminate.
Qed.

Lemma process_item_no_entry (w : world) (item : Soup.element) (s : state) :
  entry_of item = None -> fst (process_item w item s) <> Ok tt.
Proof.
  unfold entry_of, field, process_item, bind.
  destruct (Soup.find (py "title") None (Soup.children item)) as [t|];
    cbn [option_map text_of]; [|discriminate].
  destruct (Soup.find (py "link") None (Soup.children item)) as [l|];
    cbn [option_map text_of]; [|discriminate].
  destruct (Soup.find (py "pubDate") None (Soup.children item)) as [p|];
    cbn [option_map text_of]; discriminate.
Qed.

(** With no database fault, an entry the loop body gets through is stored
    afterwards. *)
Lemma process_entry_stores (w : world) (t l p : str) (s s1 : state) :
  no_faults w -> db s <> None ->
  process_entry w t l p s = (Ok tt, s1) ->
  stored (cve_number_of t) s1 = true.
Proof.
  intros Hw Hdb. destruct (db s) as [rows|] eqn:Edb; [clear Hdb|congruence].
  unfold process_entry, bind at 1.
  rewrite (cve_exists_runs w _ s rows) by (rewrite ?Hw; auto).
  destruct (Sqlite.has_key (cve_number_of t) rows) eqn:Hk.
  - intros H; injection H as <-. unfold stored. simpl. now rewrite Edb.
  - unfold bind at 1, requests_get.
    destruct (net w (length (fetched (ticked s))) l) as [r|]; [|discriminate].
    unfold bind at 1, raise_for_status.
    destruct (error_status r); [discriminate|]. unfold ret at 1.
    unfold bind at 1, BeautifulSoup.
    destruct (parse_html w (content r)) as [soup|]; [|discriminate].
    unfold ret at 1. unfold bind at 1.
    destruct (extract w t l p (cve_number_of t) soup
                (requested l (ticked s))) as [[details|e] s2] eqn:Ex;
      [|discriminate].
    apply extract_fields in Ex as (d & name & _ & _ & -> & ->).
    unfold bind.
    match goal with |- context [insert_cve_to_db w ?r ?s0] =>
      destruct (insert_new w r s0 rows (Hw _) Edb Hk) as (s3 & Hins & Hdb3)
    end.
    rewrite Hins. intros H; injection H as <-.
    unfold stored. simpl. rewrite Hdb3. simpl.
    unfold Sqlite.has_key. rewrite existsb_app. simpl.
    rewrite str_eqb_refl. apply orb_true_r.
Qed.

Lemma loop_stores (w : world) (items : list Soup.element) (s s1 : state) :
  no_faults w -> db s <> None ->
  for_each (process_item w) items s = (Ok tt, s1) ->
  Forall (known s1) items.
Proof.
  intros Hw. revert s. induction items as [|item items IH]; intros s Hdb; simpl.
  - constructor.
  - unfold bind.
    destruct (process_item w item s) as [[[]|e] s'] eqn:Hitem; [|discriminate].
    intros Hrest.
    destruct (entry_of item) as [e|] eqn:He.
    2:{ pose proof (process_item_no_entry w item s He) as H.
        rewrite Hitem in H. now destruct H. }
    rewrite (process_item_entry w item e s He) in Hitem.
    pose proof (process_entry_stores w _ _ _ s s' Hw Hdb Hitem) as Hst.
    assert (Hdb' : db s' <> None).
    { pose proof (keeps_process_entry (fun d => d <> None) w (title e) (link e)
                    (pub_date e)) as K.
      destruct (K (fun r d _ => table_after_insert r d) s Hdb) as [K1 _].
      now rewrite Hitem in K1. }
    constructor; [|exact (IH s' Hdb' Hrest)].
    exists e. split; [exact He|].
    pose proof (keeps_for_each
                  (fun d => Sqlite.has_key (cve_number_of (title e)) (Sqlite.rows d) = true)
                  (process_item w) items) as K.
    destruct (K (fun x => keeps_process_item _ w x
                            (fun r d => stored_after_insert _ r d)) s' Hst) as [K1 _].
    now rewrite Hrest in K1.
Qed.

Lemma loop_skips (w : world) (items : list Soup.element) (s : state) :
  (forall n, statement_runs (disk w n) = true) ->
  Forall (known s) items ->
  exists s', for_each (process_item w) items s = (Ok tt, s') /\
             db s' = db s /\ fetched s' = fetched s /\
             skipped s' = skipped s + length items.
Proof.
  intros Hw. revert s. induction items as [|item items IH]; intros s Hall; simpl.
  - exists s. repeat split. lia.
  - inversion Hall as [|? ? [e [He Hk]] Hrest]; subst.
    unfold bind. rewrite (process_item_entry w item e s He).
    destruct (process_entry_known w (title e) (link e) (pub_date e) s Hk) as [_ H].
    rewrite (H (Hw _)).
    destruct (IH (printed (Skipping (cve_number_of (title e))) (ticked s)))
      as (s' & Hrun & Hdb & Hf & Hsk).
    { eapply Forall_impl; [|exact Hrest].
      intros x [e' [He' Hk']]. exists e'. split; [exact He'|exact Hk']. }
    exists s'. split; [exact Hrun|]. rewrite Hdb, Hf, Hsk, skipped_printed.
    repeat split. unfold skipped. simpl. lia.
Qed.

(** With no database fault, a loop that got through the items of a feed
    skips every one of them when it is run over the same items again: the
    table stays as it is and no page is requested. *)
Lemma rerun_skips_every_entry (w : world) (items : list Soup.element)
    (s s1 : state) :
  no_faults w -> db s <> None ->
  for_each (process_item w) items s = (Ok tt, s1) ->
  exists s2, for_each (process_item w) items s1 = (Ok tt, s2) /\
             db s2 = db s1 /\ fetched s2 = fetched s1 /\
             skipped s2 = skipped s1 + length items.
Proof.
  intros Hw Hdb Hrun. apply loop_skips.
  - intros n. now rewrite Hw.
  - exact (loop_stores w items s s1 Hw Hdb Hrun).
Qed.

(** The second scenario of the specification: the same entry processed
    twice. *)
Example scenario_second_run :
  snd (main Example.one_new_entry (snd (main Example.one_new_entry fresh))) =
  {| db := Some [Example.flaw_row];
     db_calls := 5;
     fetched := [url; py "https://cvefeed.io/vuln/detail/CVE-2024-1234"; url];
     stdout := [Table_ready; Inserted (py "CVE-2024-1234");
                Processed (py "CVE-2024-1234");
                Table_ready; Skipping (py "CVE-2024-1234")] |}.
Proof. vm_compute. reflexivity. Qed.

(** A commit that fails leaves the row out, after "Inserted CVE" was
    printed. *)
Example scenario_commit_fails :
  snd (main Example.commit_fails fresh) =
  {| db := Some [];
     db_calls := 3;
     fetched := [url; py "https://cvefeed.io/vuln/detail/CVE-2024-1234"];
     stdout := [Table_ready; Inserted (py "CVE-2024-1234");
                Error_inserting Sqlite.OperationalError] |}.
Proof. vm_compute. reflexivity. Qed.

(** * Further properties of the script *)

(** ** The three database functions *)

Lemma cve_exists_computes (w : world) (k : str) (s : state) :
  cve_exists w k s =
  (Ok (statement_runs (disk w (db_calls s)) && stored k s),
   snd (cve_exists w k s)) /\
  db (snd (cve_exists w k s)) = db s /\
  fetched (snd (cve_exists w k s)) = fetched s.
Proof.
  unfold cve_exists, stored, get_db_connection, bind, execute_select,
    tick, print, ret.
  destruct (disk w (db_calls s)) eqn:Ed; simpl;
    destruct (db s) as [rows|] eqn:Edb; simpl; rewrite ?Edb; auto.
Qed.

Lemma insert_computes (w : world) (r : cve) (s : state) :
  insert_cve_to_db w r s = (Ok (accepts w r s), snd (insert_cve_to_db w r s)) /\
  db (snd (insert_cve_to_db w r s)) =
    (if accepts w r s then Some (Sqlite.rows (db s) ++ [r]) else db s) /\
  fetched (snd (insert_cve_to_db w r s)) = fetched s.
Proof.
  unfold insert_cve_to_db, accepts, get_db_connection, bind, snapshot,
    execute_insert, commit, tick, print, ret.
  destruct (disk w (db_calls s)) eqn:Ed; simpl;
    destruct (db s) as [rows|] eqn:Edb; simpl; rewrite ?Edb; simpl; auto;
    destruct (Sqlite.has_key (cve_number r) rows) eqn:Ek; simpl;
    rewrite ?Edb; auto.
Qed.

(** [cve_exists] never raises and touches neither the table nor the network.
    It answers [True] exactly when the check goes through and the
    identifier is stored: an identifier that is not stored is never reported
    as present, and every failure of the connection or of the statement
    reads as "not stored". *)
Theorem cve_exists_answer (w : world) (k : str) (s : state) :
  fst (cve_exists w k s) =
    Ok (statement_runs (disk w (db_calls s)) && stored k s) /\
  db (snd (cve_exists w k s)) = db s /\
  fetched (snd (cve_exists w k s)) = fetched s /\
  db_calls (snd (cve_exists w k s)) = S (db_calls s).
Proof.
  unfold cve_exists, stored, get_db_connection, bind, execute_select,
    tick, print, ret.
  destruct (disk w (db_calls s)) eqn:Ed; simpl;
    destruct (db s) as [rows|] eqn:Edb; simpl; rewrite ?Edb; auto.
Qed.

(** [insert_cve_to_db] never raises and tells the truth: it returns [True]
    exactly when the row went into the table, as the last one and as given;
    when it returns [False] (connection, statement or commit failure,
    missing table, identifier taken) the table is what it was. *)
Theorem insert_returns_whether_stored (w : world) (r : cve) (s : state) :
  fst (insert_cve_to_db w r s) = Ok (accepts w r s) /\
  db (snd (insert_cve_to_db w r s)) =
    (if accepts w r s then Some (Sqlite.rows (db s) ++ [r]) else db s) /\
  fetched (snd (insert_cve_to_db w r s)) = fetched s /\
  db_calls (snd (insert_cve_to_db w r s)) = S (db_calls s).
Proof.
  unfold insert_cve_to_db, accepts, get_db_connection, bind, snapshot,
    execute_insert, commit, tick, print, ret.
  destruct (disk w (db_calls s)) eqn:Ed; simpl;
    destruct (db s) as [rows|] eqn:Edb; simpl; rewrite ?Edb; simpl; auto;
    destruct (Sqlite.has_key (cve_number r) rows) eqn:Ek; simpl;
    rewrite ?Edb; auto.
Qed.

(** [create_cve_table] never raises, and never drops or changes a row.  It
    returns [True] exactly when the connection opens and the statement
    runs; the table exists from then on, and a table that existed is left
    as it was. *)
Theorem create_table_keeps_rows (w : world) (s : state) :
  fst (create_cve_table w s) = Ok (statement_runs (disk w (db_calls s))) /\
  Sqlite.rows (db (snd (create_cve_table w s))) = Sqlite.rows (db s) /\
  db (snd (create_cve_table w s)) =
    (if statement_runs (disk w (db_calls s))
     then Some (Sqlite.rows (db s)) else db s).
Proof.
  unfold create_cve_table, get_db_connection, bind, execute_create,
    tick, print, ret.
  destruct (disk w (db_calls s)) eqn:Ed; simpl;
    destruct (db s) as [rows|] eqn:Edb; simpl; rewrite ?Edb; auto.
Qed.

Lemma stored_perform (w : world) (c : call) (k : str) (s : state) :
  stored k s = true -> stored k (perform w c s) = true.
Proof.
  unfold stored.
  apply (keeps_perform (fun d => Sqlite.has_key k (Sqlite.rows d) = true) w c s).
  - intros d. now rewrite create_table_rows.
  - intros r d. apply stored_after_insert.
Qed.

Lemma stored_perform_all (w : world) (cs : list call) (k : str) (s : state) :
  stored k s = true -> stored k (perform_all w cs s) = true.
Proof.
  revert s; induction cs as [|c cs IH]; intros s H; simpl; [exact H|].
  apply IH. now apply stored_perform.
Qed.

Lemma perform_all_extends (w : world) (cs : list call) (s : state) :
  exists added,
    Sqlite.rows (db (perform_all w cs s)) = Sqlite.rows (db s) ++ added.
Proof.
  revert s; induction cs as [|c cs IH]; intros s; simpl.
  - exists []. now rewrite app_nil_r.
  - destruct (IH (perform w c s)) as [more Hmore].
    destruct (perform_extends w c s) as [added Hadded].
    exists (added ++ more). unfold perform_all in *. simpl.
    now rewrite Hmore, Hadded, app_assoc.
Qed.

(** Insert, then look up.  Once [insert_cve_to_db] has returned [True] for a
    row, whatever the script calls next (table creation, checks, other
    inserts, whole runs), the row is still in the table as inserted, and
    every existence check for its identifier that goes through answers
    [True]. *)
Theorem inserted_row_stays_found (w : world) (r : cve) (s : state)
    (cs : list call) :
  fst (insert_cve_to_db w r s) = Ok true ->
  In r (Sqlite.rows (db (perform_all w cs (snd (insert_cve_to_db w r s))))) /\
  (statement_runs
     (disk w (db_calls (perform_all w cs (snd (insert_cve_to_db w r s))))) = true ->
   fst (cve_exists w (cve_number r)
          (perform_all w cs (snd (insert_cve_to_db w r s)))) = Ok true).
Proof.
  intros Hins.
  destruct (insert_computes w r s) as (Hb & Hdb & _).
  rewrite Hb in Hins. simpl in Hins. injection Hins as Hacc.
  rewrite Hacc in Hdb. clear Hb.
  set (s1 := snd (insert_cve_to_db w r s)) in *.
  assert (Hin : In r (Sqlite.rows (db s1))).
  { rewrite Hdb. simpl. apply in_or_app. right. now left. }
  split.
  - destruct (perform_all_extends w cs s1) as [added ->].
    apply in_or_app. now left.
  - intros Hruns.
    destruct (cve_exists_computes w (cve_number r) (perform_all w cs s1)) as (-> & _).
    rewrite Hruns. simpl. f_equal.
    apply stored_perform_all. unfold stored. apply has_key_In.
    now apply in_map.
Qed.

Lemma inserted_row_stays_found_witness :
  fst (insert_cve_to_db Example.one_new_entry Example.flaw_row Example.created)
    = Ok true /\
  In Example.flaw_row
     (Sqlite.rows (db (perform_all Example.one_new_entry
                         [Run; Insert Example.other_row; Create_table]
                         (snd (insert_cve_to_db Example.one_new_entry
                                 Example.flaw_row Example.created))))).
Proof.
  split; [reflexivity|].
  exact (proj1 (inserted_row_stays_found Example.one_new_entry Example.flaw_row
                  Example.created [Run; Insert Example.other_row; Create_table]
                  eq_refl)).
Defined.

(** ** What leaves the loop *)

Lemma process_item_missing_field (w : world) (item : Soup.element) (s : state) :
  entry_of item = None -> process_item w item s = (Raise AttributeError, s).
Proof.
  unfold entry_of, field, process_item, bind.
  destruct (Soup.find (py "title") None (Soup.children item)) as [t|];
    cbn [option_map text_of]; [|reflexivity].
  destruct (Soup.find (py "link") None (Soup.children item)) as [l|];
    cbn [option_map text_of]; [|reflexivity].
  destruct (Soup.find (py "pubDate") None (Soup.children item)) as [p|];
    cbn [option_map text_of]; [discriminate|reflexivity].
Qed.

(** A feed item without a [title], a [link] or a [pubDate] ends the run on
    "Unexpected error" as soon as the loop reaches it: nothing is requested
    or stored for it, and the items after it are never looked at.  What the
    items before it stored stays. *)
Theorem item_without_field_ends_run (w : world) (s : state) (r : response)
    (soup : list Soup.node)
    (before after : list Soup.element) (item : Soup.element) (s1 : state) :
  net w (length (fetched s)) url = Some r ->
  error_status r = false ->
  parse_xml w (content r) = Some soup ->
  Soup.find_all (py "item") None soup = before ++ item :: after ->
  for_each (process_item w) before (requested url s) = (Ok tt, s1) ->
  entry_of item = None ->
  fetch_and_process_cve w s = (Ok tt, printed Unexpected_error s1).
Proof.
  intros Hnet Hok Hsoup Hitems Hbefore He.
  unfold fetch_and_process_cve.
  rewrite (try_block_served w s r soup Hnet Hok Hsoup).
  rewrite Hitems, for_each_app, Hbefore. simpl.
  unfold bind at 1. rewrite (process_item_missing_field w item s1 He).
  reflexivity.
Qed.

Lemma item_without_field_ends_run_witness :
  fetch_and_process_cve More.undated_feed Example.created =
  (Ok tt,
   {| db := Some [Example.flaw_row];
      db_calls := 3;
      fetched := [url; py "https://cvefeed.io/vuln/detail/CVE-2024-1234"];
      stdout := [Table_ready; Inserted (py "CVE-2024-1234");
                 Processed (py "CVE-2024-1234"); Unexpected_error] |}).
Proof.
  exact (item_without_field_ends_run More.undated_feed Example.created
           (Example.ok "feed")
           (Example.rss [Example.flaw; More.undated; Example.other])
           [More.flaw_item] [More.last_item]
           More.undated_item
           {| db := Some [Example.flaw_row];
              db_calls := 3;
              fetched := [url; py "https://cvefeed.io/vuln/detail/CVE-2024-1234"];
              stdout := [Table_ready; Inserted (py "CVE-2024-1234");
                         Processed (py "CVE-2024-1234")] |}
           eq_refl eq_refl eq_refl eq_refl eq_refl eq_refl).
Defined.

Lemma extract_raises (w : world) (t l p n : str) (soup : list Soup.node)
    (s s' : state) (e : exn) :
  extract w t l p n soup s = (Raise e, s') ->
  s' = s /\ e = AttributeError /\
  exists cell,
    Soup.find (py "td") (Some (py "Description")) soup = Some cell /\
    Soup.find_next_sibling (py "td") cell = None.
Proof.
  unfold extract, bind at 1, clean_description_of.
  destruct (cve_name_of_spec t s) as [name [Hn _]].
  destruct (Soup.find (py "td") (Some (py "Description")) soup) as [cell|].
  - unfold bind at 1.
    destruct (Soup.find_next_sibling (py "td") cell) as [sib|] eqn:Hsib; simpl.
    + unfold bind. rewrite Hn. discriminate.
    + intros H; injection H as <- <-. repeat split. now exists cell.
  - unfold ret at 1. unfold bind. rewrite Hn. discriminate.
Qed.



(** A page the parser rejects: the run ends on "Unexpected error", with
    nothing stored, and the entry after it is never looked at. *)
Example scenario_rejected_page :
  snd (main More.rejected_page fresh) =
  {| db := Some [];
     db_calls := 2;
     fetched := [url; py "https://cvefeed.io/vuln/detail/CVE-2024-1234"];
     stdout := [Table_ready; Unexpected_error] |}.
Proof. vm_compute. reflexivity. Qed.

(** The fields are computed from the title and the page alone. *)
Lemma clean_description_any_state (w : world) (soup : list Soup.node)
    (s s0 : state) (d : str) :
  clean_description_of w soup s = (Ok d, s) ->
  clean_description_of w soup s0 = (Ok d, s0).
Proof.
  unfold clean_description_of.
  destruct (Soup.find (py "td") (Some (py "Description")) soup) as [cell|].
  - unfold bind, text_of.
    destruct (Soup.find_next_sibling (py "td") cell); [|discriminate].
    unfold ret. intros H; injection H as <-. reflexivity.
  - unfold ret. intros H; injection H as <-. reflexivity.
Qed.

Lemma cve_name_any_state (t : str) (s s0 : state) (name : str) :
  cve_name_of t s = (Ok name, s) -> cve_name_of t s0 = (Ok name, s0).
Proof.
  unfold cve_name_of. destruct (Str.contains (py "- ") t).
  - unfold getitem.
    destruct (nth_error (Str.split1 (py "- ") t) 1); [|discriminate].
    unfold ret. intros H; injection H as <-. reflexivity.
  - unfold ret. intros H; injection H as <-. reflexivity.
Qed.

(** ** A new entry *)

(** The usual case.  For an entry whose identifier is not stored, when the
    check and the [INSERT] go through, the page is fetched and parsed and
    its "Description" cell, if any, is followed by a cell: the loop body makes
    one request and two database calls, prints "Inserted CVE" and
    "Processed CVE", and appends exactly one row.  That row carries the
    identifier derived from the title, the link and the publication date
    of the feed as they came, the description of the page and the
    severity read off that description. *)
Theorem new_entry_is_stored (w : world) (t l p : str) (s : state)
    (rows : list cve) (resp : response) (soup : list Soup.node) :
  db s = Some rows ->
  Sqlite.has_key (cve_number_of t) rows = false ->
  statement_runs (disk w (db_calls s)) = true ->
  net w (length (fetched s)) l = Some resp ->
  error_status resp = false ->
  parse_html w (content resp) = Some soup ->
  match Soup.find (py "td") (Some (py "Description")) soup with
  | Some cell => Soup.find_next_sibling (py "td") cell <> None
  | None => True
  end ->
  disk w (S (db_calls s)) = NoFault ->
  exists r,
    process_entry w t l p s =
    (Ok tt, {| db := Some (rows ++ [r]);
               db_calls := S (S (db_calls s));
               fetched := fetched s ++ [l];
               stdout := stdout s ++ [Inserted (cve_number_of t);
                                      Processed (cve_number_of t)] |}) /\
    cve_number r = cve_number_of t /\
    cve_link r = l /\
    cve_pubdate r = p /\
    cve_severity r = severity_of (cve_description r) /\
    clean_description_of w soup s = (Ok (cve_description r), s) /\
    cve_name_of t s = (Ok (cve_name r), s).
Proof.
  intros Hdb Hk Hruns Hnet Hst Hsoup Hpage Hins.
  set (s2 := requested l (ticked s)).
  destruct (extract_returns w t l p (cve_number_of t) soup s2 Hpage)
    as [r Hex].
  pose proof Hex as Hfields.
  apply extract_fields in Hfields as (d & name & Hd & Hn & _ & Hr).
  exists r.
  assert (Hnum : cve_number r = cve_number_of t) by (now subst r).
  split.
  - unfold process_entry, bind at 1.
    rewrite (cve_exists_runs w _ s rows Hruns Hdb), Hk.
    unfold bind at 1, requests_get. simpl. rewrite Hnet.
    unfold bind at 1, raise_for_status. rewrite Hst. unfold ret at 1.
    unfold bind at 1, BeautifulSoup. rewrite Hsoup. unfold ret at 1.
    unfold bind at 1. fold s2. rewrite Hex.
    unfold bind, insert_cve_to_db, get_db_connection, bind, snapshot,
      execute_insert, commit, tick, print, ret. simpl.
    rewrite Hins. simpl. rewrite Hdb. simpl. rewrite Hnum, Hk. simpl.
    unfold printed. simpl. rewrite <- app_assoc. reflexivity.
  - subst r. simpl. repeat split.
    + exact (clean_description_any_state w _ s2 s d Hd).
    + exact (cve_name_any_state t s2 s name Hn).
Qed.

Lemma new_entry_is_stored_witness :
  exists r,
    process_entry Example.one_new_entry
      (py "CVE-2024-1234 - Example Flaw")
      (py "https://cvefeed.io/vuln/detail/CVE-2024-1234")
      (py "Mon, 01 Jan 2024 00:00:00 +0000") Example.created =
    (Ok tt, {| db := Some ([] ++ [r]);
               db_calls := 3;
               fetched := [] ++ [py "https://cvefeed.io/vuln/detail/CVE-2024-1234"];
               stdout := [Table_ready] ++
                         [Inserted (cve_number_of (py "CVE-2024-1234 - Example Flaw"));
                          Processed (cve_number_of (py "CVE-2024-1234 - Example Flaw"))] |}) /\
    cve_link r = py "https://cvefeed.io/vuln/detail/CVE-2024-1234".
Proof.
  destruct (new_entry_is_stored Example.one_new_entry
              (py "CVE-2024-1234 - Example Flaw")
              (py "https://cvefeed.io/vuln/detail/CVE-2024-1234")
              (py "Mon, 01 Jan 2024 00:00:00 +0000") Example.created []
              (Example.ok "page") Example.flaw_page
              eq_refl eq_refl eq_refl eq_refl eq_refl eq_refl
              (fun H => match H with eq_refl => I end) eq_refl)
    as (r & H1 & _ & H2 & _).
  exists r. split; [exact H1|exact H2].
Defined.

(** ** What one entry does to the state *)

Lemma cve_exists_effect (w : world) (k : str) (s : state) :
  exists b ls,
    cve_exists w k s = (Ok b, snd (cve_exists w k s)) /\
    db (snd (cve_exists w k s)) = db s /\
    fetched (snd (cve_exists w k s)) = fetched s /\
    stdout (snd (cve_exists w k s)) = stdout s ++ ls /\
    forallb quiet ls = true /\
    (b = true -> ls = [] /\ stored k s = true).
Proof.
  unfold cve_exists, stored, get_db_connection, bind, execute_select,
    tick, print, ret.
  destruct (disk w (db_calls s)) eqn:Ed; simpl;
    destruct (db s) as [rows|] eqn:Edb; simpl; rewrite ?Edb;
    try (eexists; eexists [_]; simpl; repeat split; auto; discriminate);
    try (eexists; eexists []; simpl; rewrite ?app_nil_r; repeat split; auto;
         discriminate).
Qed.

Lemma insert_effect (w : world) (r : cve) (s : state) :
  insert_cve_to_db w r s = (Ok (accepts w r s), snd (insert_cve_to_db w r s)) /\
  fetched (snd (insert_cve_to_db w r s)) = fetched s /\
  exists ls,
    stdout (snd (insert_cve_to_db w r s)) = stdout s ++ ls /\
    forallb quiet ls = true /\
    if accepts w r s
    then db s <> None /\
         db (snd (insert_cve_to_db w r s)) = Some (Sqlite.rows (db s) ++ [r])
    else db (snd (insert_cve_to_db w r s)) = db s.
Proof.
  unfold insert_cve_to_db, accepts, get_db_connection, bind, snapshot,
    execute_insert, commit, tick, print, ret.
  destruct (disk w (db_calls s)) eqn:Ed; simpl;
    destruct (db s) as [rows|] eqn:Edb; simpl; rewrite ?Edb; simpl;
    try (destruct (Sqlite.has_key (cve_number r) rows) eqn:Ek; simpl;
         rewrite ?Edb);
    repeat split;
    try (exists []; simpl; rewrite ?app_nil_r; repeat split; auto; fail);
    try (eexists [_]; simpl; repeat split; auto; discriminate);
    try (eexists [_; _]; simpl; rewrite <- ?app_assoc; simpl;
         repeat split; auto; discriminate).
Qed.

(** Whatever happens, the body of the loop skips the entry, stores one row
    for it, or leaves the table alone. *)
Lemma process_entry_effect (w : world) (t l p : str) (s : state) :
  effect t l s (snd (process_entry w t l p s)).
Proof.
  destruct (cve_exists_effect w (cve_number_of t) s)
    as (b & ls0 & Hc & Hdb & Hf & Hout & Hq & Hb).
  unfold process_entry, bind at 1. rewrite Hc.
  set (s1 := snd (cve_exists w (cve_number_of t) s)) in *.
  destruct b.
  { destruct (Hb eq_refl) as [-> Hst]. rewrite app_nil_r in Hout.
    apply Entry_skipped; simpl; congruence. }
  clear Hb.
  assert (Hdrop : effect t l s (requested l s1)).
  { apply (Entry_dropped t l s _ ls0); simpl; auto. right. now rewrite Hf. }
  unfold bind at 1, requests_get.
  destruct (net w (length (fetched s1)) l) as [resp|]; [|exact Hdrop].
  unfold bind at 1, raise_for_status.
  destruct (error_status resp); [exact Hdrop|].
  unfold ret at 1. unfold bind at 1, BeautifulSoup.
  destruct (parse_html w (content resp)) as [soup|]; [|exact Hdrop].
  unfold ret at 1. unfold bind at 1.
  destruct (extract w t l p (cve_number_of t) soup
              (requested l s1)) as [[details|e] s3] eqn:Hex.
  2:{ apply extract_raises in Hex as (-> & _). exact Hdrop. }
  apply extract_fields in Hex as (d & name & _ & _ & -> & Hdetails).
  assert (Hnum : cve_number details = cve_number_of t) by now subst details.
  set (s2 := requested l s1) in *.
  destruct (insert_effect w details s2) as (Hi & Hfi & ls1 & Hout1 & Hq1 & Hacc).
  unfold bind. rewrite Hi.
  set (s4 := snd (insert_cve_to_db w details s2)) in *.
  assert (Hquiet : forallb quiet (ls0 ++ ls1) = true)
    by (rewrite forallb_app, Hq, Hq1; reflexivity).
  destruct (accepts w details s2).
  - destruct Hacc as [Hsome Hdb4].
    apply (Entry_stored t l s _ details (ls0 ++ ls1)); simpl; auto.
    + unfold s2 in Hsome. simpl in Hsome. congruence.
    + rewrite Hdb4. unfold s2. simpl. now rewrite Hdb.
    + rewrite Hfi. unfold s2. simpl. now rewrite Hf.
    + rewrite Hout1. unfold s2. simpl. rewrite Hout.
      now rewrite <- !app_assoc.
  - apply (Entry_dropped t l s _ (ls0 ++ ls1)); simpl; auto.
    + rewrite Hacc. unfold s2. simpl. exact Hdb.
    + right. rewrite Hfi. unfold s2. simpl. now rewrite Hf.
    + rewrite Hout1. unfold s2. simpl. rewrite Hout. now rewrite <- app_assoc.
Qed.

Lemma process_item_effect (w : world) (item : Soup.element) (s : state) :
  (entry_of item = None /\ snd (process_item w item s) = s) \/
  exists e, entry_of item = Some e /\
            effect (title e) (link e) s (snd (process_item w item s)).
Proof.
  destruct (entry_of item) as [e|] eqn:He.
  - right. exists e. split; [reflexivity|].
    rewrite (process_item_entry w item e s He). apply process_entry_effect.
  - left. split; [reflexivity|].
    now rewrite (process_item_missing_field w item s He).
Qed.

(** A relation between states that every step of a run respects holds
    between the start and the end of the run. *)
Lemma for_each_relates {A} (R : state -> state -> Prop) (body : A -> M unit)
    (l : list A) :
  (forall s, R s s) ->
  (forall s1 s2 s3, R s1 s2 -> R s2 s3 -> R s1 s3) ->
  (forall x s, R s (snd (body x s))) ->
  forall s, R s (snd (for_each body l s)).
Proof.
  intros Hrefl Htrans Hbody. induction l as [|x l IH]; intros s; simpl.
  - apply Hrefl.
  - unfold bind. pose proof (Hbody x s) as Hx.
    destruct (body x s) as [[[]|e] s1]; simpl in *; [|exact Hx].
    exact (Htrans _ _ _ Hx (IH s1)).
Qed.

Lemma run_relates (R : state -> state -> Prop) (w : world) :
  (forall s, R s s) ->
  (forall s1 s2 s3, R s1 s2 -> R s2 s3 -> R s1 s3) ->
  (forall s, R s (requested url s)) ->
  (forall l s, quiet l = true -> R s (printed l s)) ->
  (forall item s, R s (snd (process_item w item s))) ->
  forall s, R s (snd (fetch_and_process_cve w s)).
Proof.
  intros Hrefl Htrans Hreq Hprint Hitem s.
  assert (Htry : R s (snd (try_block w s))).
  { unfold try_block, bind at 1, requests_get.
    destruct (net w (length (fetched s)) url) as [r|]; [|apply Hreq].
    unfold bind at 1, raise_for_status.
    destruct (error_status r); [apply Hreq|]. unfold ret at 1.
    unfold bind at 1, BeautifulSoup.
    destruct (parse_xml w (content r)) as [soup|]; [|apply Hreq].
    unfold ret at 1.
    apply (Htrans _ _ _ (Hreq s)).
    now apply for_each_relates. }
  unfold fetch_and_process_cve.
  destruct (try_block w s) as [[[]|[]] s1]; simpl in *; auto;
    apply (Htrans _ _ _ Htry); now apply Hprint.
Qed.

Lemma processed_app (a b : list line) :
  processed (a ++ b) = processed a ++ processed b.
Proof. unfold processed. apply flat_map_app. Qed.

Lemma processed_quiet (ls : list line) :
  forallb quiet ls = true -> processed ls = [].
Proof.
  induction ls as [|l ls IH]; simpl; [reflexivity|].
  intros H. apply andb_prop in H as [Hl Hls].
  destruct l; try discriminate; simpl; auto.
Qed.

Lemma skipped_quiet (ls : list line) (out : list line) :
  forallb quiet ls = true ->
  length (filter is_skipping (out ++ ls)) = length (filter is_skipping out).
Proof.
  intros H. rewrite filter_app, length_app.
  assert (E : filter is_skipping ls = []).
  { induction ls as [|l ls IH]; simpl in *; [reflexivity|].
    apply andb_prop in H as [Hl Hls].
    destruct l; try discriminate; simpl; auto. }
  rewrite E. simpl. lia.
Qed.

Lemma agree_refl (s : state) : agree s s.
Proof. exists []. simpl. now rewrite !app_nil_r. Qed.

Lemma agree_trans (s1 s2 s3 : state) : agree s1 s2 -> agree s2 s3 -> agree s1 s3.
Proof.
  intros [a1 [H1 H1']] [a2 [H2 H2']]. exists (a1 ++ a2).
  rewrite H2, H1, H2', H1', map_app, !app_assoc. now split.
Qed.

Lemma agree_quiet (ls : list line) (s s' : state) :
  forallb quiet ls = true -> db s' = db s -> stdout s' = stdout s ++ ls ->
  agree s s'.
Proof.
  intros Hq Hdb Hout. exists []. rewrite Hdb, Hout, processed_app,
    (processed_quiet ls Hq). simpl. now rewrite !app_nil_r.
Qed.

Lemma agree_process_item (w : world) (item : Soup.element) (s : state) :
  agree s (snd (process_item w item s)).
Proof.
  destruct (process_item_effect w item s) as [[_ ->]|[e [_ H]]];
    [apply agree_refl|].
  destruct H as [Hst Hdb Hf Hout|r ls Hq Hnum Hsome Hdb Hf Hout|ls Hq Hdb Hf Hout].
  - exists []. rewrite Hdb, Hout, processed_app. simpl. now rewrite !app_nil_r.
  - exists [r]. rewrite Hdb, Hout, !processed_app, (processed_quiet ls Hq).
    simpl. now rewrite Hnum.
  - now apply (agree_quiet ls).
Qed.

(** The log and the table agree.  Over a whole run, whatever fails on the
    way, rows are only appended to the table, and they are the entries
    reported by the "Processed CVE" lines of the run: as many, in the same
    order, under the same identifiers. *)
Theorem processed_lines_are_rows_added (w : world) (s : state) :
  exists added,
    Sqlite.rows (db (snd (fetch_and_process_cve w s))) =
      Sqlite.rows (db s) ++ added /\
    processed (stdout (snd (fetch_and_process_cve w s))) =
      processed (stdout s) ++ map cve_number added.
Proof.
  apply (run_relates agree w).
  - apply agree_refl.
  - apply agree_trans.
  - intros s0. now apply (agree_quiet []); simpl; rewrite ?app_nil_r.
  - intros l s0 Hl. apply (agree_quiet [l]); simpl; auto. now rewrite Hl.
  - apply agree_process_item.
Qed.

(** ** The requests of a run *)

Lemma subseq_nil {A} (l : list A) : subseq [] l.
Proof. induction l; constructor; assumption. Qed.

Lemma loop_requests (w : world) (items : list Soup.element) (s : state) :
  exists ls,
    fetched (snd (for_each (process_item w) items s)) = fetched s ++ ls /\
    subseq ls (links_of items).
Proof.
  revert s; induction items as [|item items IH]; intros s; simpl.
  - exists []. split; [now rewrite app_nil_r|constructor].
  - unfold bind.
    assert (Hstep : exists l0,
              fetched (snd (process_item w item s)) = fetched s ++ l0 /\
              subseq l0 (match entry_of item with
                         | Some e => [link e]
                         | None => []
                         end)).
    { destruct (process_item_effect w item s) as [[He ->]|[e [He H]]];
        rewrite He.
      - exists []. split; [now rewrite app_nil_r|constructor].
      - destruct H as [_ _ Hf _|r ls _ _ _ _ Hf _|ls _ _ [Hf|Hf] _].
        + exists []. rewrite Hf, app_nil_r. split; [reflexivity|apply subseq_nil].
        + exists [link e]. split; [exact Hf|repeat constructor].
        + exists []. rewrite Hf, app_nil_r. split; [reflexivity|apply subseq_nil].
        + exists [link e]. split; [exact Hf|repeat constructor]. }
    destruct Hstep as (l0 & Hl0 & Hsub0).
    assert (Hglue : forall rest l1, subseq l1 rest ->
              subseq (l0 ++ l1)
                (match entry_of item with
                 | Some e => [link e]
                 | None => []
                 end ++ rest)).
    { intros rest l1 H1. inversion Hsub0; subst; simpl.
      - destruct (entry_of item); [discriminate|]. exact H1.
      - destruct (entry_of item) as [e|]; [|discriminate].
        match goal with H : _ :: _ = [link e] |- _ => injection H as -> -> end.
        match goal with H : subseq _ [] |- _ => inversion H; subst end.
        now constructor.
      - destruct (entry_of item) as [e|]; [|discriminate].
        match goal with H : _ :: _ = [link e] |- _ => injection H as -> -> end.
        match goal with H : subseq _ [] |- _ => inversion H; subst end.
        now constructor. }
    destruct (process_item w item s) as [[[]|e] s1]; simpl in *.
    + destruct (IH s1) as (l1 & Hl1 & Hsub1).
      exists (l0 ++ l1). rewrite Hl1, Hl0, app_assoc. split; [reflexivity|].
      now apply Hglue.
    + exists l0. rewrite Hl0. split; [reflexivity|].
      rewrite <- (app_nil_r l0). apply Hglue. apply subseq_nil.
Qed.

Lemma run_raises_nothing (w : world) (s : state) :
  fst (fetch_and_process_cve w s) = Ok tt.
Proof.
  unfold fetch_and_process_cve.
  destruct (try_block w s) as [[[]|[]] s1]; reflexivity.
Qed.

Lemma run_fetched (w : world) (s : state) :
  fetched (snd (fetch_and_process_cve w s)) = fetched (snd (try_block w s)).
Proof.
  unfold fetch_and_process_cve.
  destruct (try_block w s) as [[[]|[]] s1]; reflexivity.
Qed.

Lemma run_db (w : world) (s : state) :
  db (snd (fetch_and_process_cve w s)) = db (snd (try_block w s)).
Proof.
  unfold fetch_and_process_cve.
  destruct (try_block w s) as [[[]|[]] s1]; reflexivity.
Qed.

Lemma run_db_calls (w : world) (s : state) :
  db_calls (snd (fetch_and_process_cve w s)) = db_calls (snd (try_block w s)).
Proof.
  unfold fetch_and_process_cve.
  destruct (try_block w s) as [[[]|[]] s1]; reflexivity.
Qed.

(** With no items to work on, what stands inside [try:] ends with the
    request for the feed; with items, it is the loop over them. *)
Lemma try_block_not_served (w : world) (s : state) :
  served_items w s = None ->
  snd (try_block w s) = requested url s.
Proof.
  unfold served_items, try_block, bind at 1, requests_get.
  destruct (net w (length (fetched s)) url) as [r|]; [|reflexivity].
  unfold bind at 1, raise_for_status.
  destruct (error_status r); [reflexivity|]. unfold ret at 1.
  unfold bind at 1, BeautifulSoup.
  destruct (parse_xml w (content r)) as [soup|]; [discriminate|reflexivity].
Qed.

Lemma try_block_items (w : world) (s : state) (items : list Soup.element) :
  served_items w s = Some items ->
  try_block w s = for_each (process_item w) items (requested url s).
Proof.
  unfold served_items.
  destruct (net w (length (fetched s)) url) as [r|] eqn:Hnet; [|discriminate].
  destruct (error_status r) eqn:Hok; [discriminate|].
  destruct (parse_xml w (content r)) as [soup|] eqn:Hsoup; [|discriminate].
  intros H; injection H as <-.
  exact (try_block_served w s r soup Hnet Hok Hsoup).
Qed.

Lemma run_requests (w : world) (s : state) :
  exists ls,
    fetched (snd (fetch_and_process_cve w s)) = fetched s ++ url :: ls /\
    match served_items w s with
    | Some items => subseq ls (links_of items)
    | None => ls = []
    end.
Proof.
  rewrite run_fetched.
  destruct (served_items w s) as [items|] eqn:Hserved.
  - rewrite (try_block_items w s items Hserved).
    destruct (loop_requests w items (requested url s)) as (ls & Hls & Hsub).
    exists ls. split; [|exact Hsub].
    rewrite Hls. simpl. now rewrite <- app_assoc.
  - rewrite (try_block_not_served w s Hserved). now exists [].
Qed.

(** What a run requests: the feed first, always.  When the request for
    the feed fails ([requests.get] raises, or the answer has an error
    status) or the parser rejects the answer, nothing else is requested.
    Otherwise the other requests are for detail pages of items of the
    feed only, in the order of the feed and at most one for each item. *)
Theorem run_requests_feed_then_items (w : world) (s : state) :
  exists ls,
    fetched (snd (fetch_and_process_cve w s)) = fetched s ++ url :: ls /\
    match net w (length (fetched s)) url with
    | Some r =>
        if error_status r then ls = []
        else match parse_xml w (content r) with
             | Some soup =>
                 subseq ls (links_of (Soup.find_all (py "item") None soup))
             | None => ls = []
             end
    | None => ls = []
    end.
Proof.
  destruct (run_requests w s) as (ls & Hls & H).
  exists ls. split; [exact Hls|].
  unfold served_items in H.
  destruct (net w (length (fetched s)) url) as [r|]; [|exact H].
  destruct (error_status r); [exact H|].
  destruct (parse_xml w (content r)); exact H.
Qed.

(** A feed answered with an error status: its body is not looked at,
    whatever items it holds. *)
Example scenario_error_body :
  snd (fetch_and_process_cve More.error_with_body Example.created) =
  {| db := Some [];
     db_calls := 1;
     fetched := [url];
     stdout := [Table_ready; Error_fetching_feed] |}.
Proof. vm_compute. reflexivity. Qed.

(** ** Without the table *)

Lemma cve_exists_calls (w : world) (k : str) (s : state) :
  db_calls (snd (cve_exists w k s)) = S (db_calls s).
Proof.
  unfold cve_exists, get_db_connection, bind, execute_select, tick, print, ret.
  destruct (disk w (db_calls s)); simpl;
    destruct (db s) as [rows|]; simpl; auto;
    destruct (Sqlite.has_key k rows); reflexivity.
Qed.

Lemma insert_calls (w : world) (r : cve) (s : state) :
  db_calls (snd (insert_cve_to_db w r s)) = S (db_calls s).
Proof.
  unfold insert_cve_to_db, get_db_connection, bind, snapshot,
    execute_insert, commit, tick, print, ret.
  destruct (disk w (db_calls s)); simpl;
    destruct (db s) as [rows|]; simpl; auto;
    destruct (Sqlite.has_key (cve_number r) rows); reflexivity.
Qed.

(** Without a table the existence check finds nothing and the [INSERT]
    stores nothing: an entry whose page is up is checked, fetched and given
    to [insert_cve_to_db], to no effect. *)
Lemma process_entry_without_table (w : world) (t l p : str) (s : state)
    (resp : response) (soup : list Soup.node) :
  db s = None ->
  net w (length (fetched s)) l = Some resp ->
  error_status resp = false ->
  parse_html w (content resp) = Some soup ->
  match Soup.find (py "td") (Some (py "Description")) soup with
  | Some cell => Soup.find_next_sibling (py "td") cell <> None
  | None => True
  end ->
  fst (process_entry w t l p s) = Ok tt /\
  db (snd (process_entry w t l p s)) = None /\
  fetched (snd (process_entry w t l p s)) = fetched s ++ [l] /\
  db_calls (snd (process_entry w t l p s)) = S (S (db_calls s)).
Proof.
  intros Hdb Hnet Hok Hsoup Hpage.
  destruct (cve_exists_computes w (cve_number_of t) s) as (Hc & Hdb1 & Hf1).
  pose proof (cve_exists_calls w (cve_number_of t) s) as Hn1.
  replace (stored (cve_number_of t) s) with false in Hc
    by (unfold stored; now rewrite Hdb).
  rewrite andb_false_r in Hc.
  set (s1 := snd (cve_exists w (cve_number_of t) s)) in *.
  destruct (extract_returns w t l p (cve_number_of t) soup (requested l s1) Hpage)
    as [r Hex].
  destruct (insert_computes w r (requested l s1)) as (Hi & Hdb2 & Hf2).
  pose proof (insert_calls w r (requested l s1)) as Hn2.
  assert (Hacc : accepts w r (requested l s1) = false).
  { unfold accepts. simpl. rewrite Hdb1, Hdb.
    now destruct (disk w (db_calls s1)). }
  rewrite Hacc in Hi, Hdb2.
  assert (Hrun : process_entry w t l p s =
                 (Ok tt, snd (insert_cve_to_db w r (requested l s1)))).
  { unfold process_entry, bind at 1. rewrite Hc.
    unfold bind at 1, requests_get. rewrite Hf1, Hnet.
    unfold bind at 1, raise_for_status. rewrite Hok. unfold ret at 1.
    unfold bind at 1, BeautifulSoup. rewrite Hsoup. unfold ret at 1.
    unfold bind at 1. rewrite Hex. unfold bind. rewrite Hi. reflexivity. }
  rewrite Hrun. cbn [fst snd].
  rewrite Hdb2, Hf2, Hn2. simpl. rewrite Hdb1, Hf1, Hn1. auto.
Qed.

Lemma loop_without_table (w : world) (items : list Soup.element) (s : state) :
  db s = None ->
  Forall (page_up w) items ->
  fst (for_each (process_item w) items s) = Ok tt /\
  db (snd (for_each (process_item w) items s)) = None /\
  fetched (snd (for_each (process_item w) items s)) =
    fetched s ++ links_of items /\
  db_calls (snd (for_each (process_item w) items s)) =
    db_calls s + 2 * length items.
Proof.
  intros Hdb Hall. revert s Hdb.
  induction Hall as [|item items [e [He Hup]] _ IH]; intros s Hdb; simpl.
  - rewrite app_nil_r. repeat split; auto.
  - destruct (Hup (length (fetched s))) as (resp & soup & Hnet & Hok & Hsoup & Hpage).
    destruct (process_entry_without_table w (title e) (link e) (pub_date e) s
                resp soup Hdb Hnet Hok Hsoup Hpage) as (H1 & H2 & H3 & H4).
    unfold bind. rewrite (process_item_entry w item e s He), He.
    destruct (process_entry w (title e) (link e) (pub_date e) s)
      as [[[]|ex] s1]; simpl in *; [|discriminate].
    destruct (IH s1 H2) as (I1 & I2 & I3 & I4).
    rewrite I3, I4, H3, H4, <- app_assoc. repeat split; auto. simpl. lia.
Qed.

(** Without the table.  The script ignores what [create_cve_table] returns
    (line 153).  When the table does not exist and cannot be created,
    [create_cve_table] returns False and [fetch_and_process_cve] runs all
    the same: the feed is requested, no entry is skipped and nothing is
    stored.  On a feed whose pages are all up, every entry is checked, its
    page is requested and its row is given to [insert_cve_to_db]: one
    request and two database calls for each item, in the order of the
    feed. *)
Theorem run_without_table (w : world) (s : state) :
  db s = None ->
  statement_runs (disk w (db_calls s)) = false ->
  fst (create_cve_table w s) = Ok false /\
  fst (main w s) = Ok tt /\
  db (snd (main w s)) = None /\
  skipped (snd (main w s)) = skipped s /\
  (exists ls, fetched (snd (main w s)) = fetched s ++ url :: ls) /\
  (forall items,
     served_items w s = Some items ->
     Forall (page_up w) items ->
     fetched (snd (main w s)) = fetched s ++ url :: links_of items /\
     db_calls (snd (main w s)) = S (db_calls s) + 2 * length items).
Proof.
  intros Hnone Hfail.
  assert (Hcreate : fst (create_cve_table w s) = Ok false /\
                    db (snd (create_cve_table w s)) = None /\
                    skipped (snd (create_cve_table w s)) = skipped s /\
                    fetched (snd (create_cve_table w s)) = fetched s /\
                    db_calls (snd (create_cve_table w s)) = S (db_calls s)).
  { unfold create_cve_table, get_db_connection, bind, execute_create,
      tick, print, ret.
    destruct (disk w (db_calls s)); try discriminate; simpl; rewrite ?Hnone;
      repeat split; auto;
      unfold skipped; simpl; apply (skipped_quiet [_]); reflexivity. }
  destruct Hcreate as (Hb & Hdb1 & Hsk1 & Hf1 & Hn1).
  assert (Hrun : forall s0, tableless s0 (snd (fetch_and_process_cve w s0))).
  { apply (run_relates tableless w).
    - intros s0 H. auto.
    - intros s1 s2 s3 H12 H23 H1. destruct (H12 H1) as [H2 E2].
      destruct (H23 H2) as [H3 E3]. split; [exact H3|congruence].
    - intros s0 H. auto.
    - intros l s0 Hl H. split; [exact H|]. unfold skipped. simpl.
      apply (skipped_quiet [l]). simpl. now rewrite Hl.
    - intros item s0 H0.
      destruct (process_item_effect w item s0) as [[_ ->]|[e [_ H]]]; [auto|].
      destruct H as [Hst Hdb Hf Hout|r ls Hq Hnum Hsome Hdb Hf Hout|ls Hq Hdb Hf Hout].
      + unfold stored in Hst. rewrite H0 in Hst. discriminate.
      + contradiction.
      + split; [congruence|]. unfold skipped. rewrite Hout.
        now apply skipped_quiet. }
  split; [exact Hb|].
  unfold main, bind.
  destruct (create_cve_table w s) as [[b0|e0] s1]; simpl in *; [|discriminate].
  destruct (Hrun s1 Hdb1) as [Hdb2 Hsk2].
  split; [apply run_raises_nothing|].
  split; [exact Hdb2|]. split; [congruence|]. split.
  - destruct (run_requests w s1) as (ls & Hls & _).
    exists ls. now rewrite Hls, Hf1.
  - intros items Hserved Hall.
    assert (Hserved1 : served_items w s1 = Some items)
      by (unfold served_items in *; now rewrite Hf1).
    rewrite run_fetched, run_db_calls, (try_block_items w s1 items Hserved1).
    destruct (loop_without_table w items (requested url s1) Hdb1 Hall)
      as (_ & _ & H3 & H4).
    rewrite H3, H4. simpl. rewrite Hf1, Hn1, <- app_assoc. split; reflexivity.
Qed.

Lemma run_without_table_witness :
  db (snd (main (Example.notices [ConnectFails]) fresh)) = None /\
  skipped (snd (main (Example.notices [ConnectFails]) fresh)) = 0 /\
  fetched (snd (main (Example.notices [ConnectFails]) fresh)) =
    [url; py "https://cvefeed.io/vuln/detail/a";
     py "https://cvefeed.io/vuln/detail/b"] /\
  db_calls (snd (main (Example.notices [ConnectFails]) fresh)) = 5.
Proof.
  destruct (run_without_table (Example.notices [ConnectFails]) fresh
              eq_refl eq_refl) as (_ & _ & H1 & H2 & _ & H3).
  split; [exact H1|]. split; [exact H2|].
  apply (H3 (Soup.find_all (py "item") None
               (Example.rss [Example.notice_a; Example.notice_b])) eq_refl).
  repeat constructor.
  - eexists. split; [reflexivity|]. intros n.
    exists (Example.ok "page"), (Example.page []). repeat split.
  - eexists. split; [reflexivity|]. intros n.
    exists (Example.ok "page"), (Example.page []). repeat split.
Defined.

(** Both pages are requested all the same. *)
Example scenario_without_table :
  snd (main (Example.notices [ConnectFails]) fresh) =
  {| db := None;
     db_calls := 5;
     fetched := [url; py "https://cvefeed.io/vuln/detail/a";
                 py "https://cvefeed.io/vuln/detail/b"];
     stdout := [Error_connecting;
                Error_checking Sqlite.OperationalError;
                Error_inserting Sqlite.OperationalError;
                Error_checking Sqlite.OperationalError;
                Error_inserting Sqlite.OperationalError] |}.
Proof. vm_compute. reflexivity. Qed.

(** ** A second run *)

Lemma known_same_table (s s' : state) (item : Soup.element) :
  db s' = db s -> known s item -> known s' item.
Proof.
  intros Hdb [e [He Hk]]. exists e. split; [exact He|].
  unfold stored in *. now rewrite Hdb.
Qed.

(** Running twice.  With no database fault, after a run that got through
    the whole feed without an exception, a second run that is served the
    same items skips every one of them: its only request is the one for
    the feed, and the table is left as it was. *)
Theorem second_run_skips_all (w : world) (s s1 : state) (r2 : response)
    (soup2 : list Soup.node) (items : list Soup.element) :
  no_faults w ->
  db s <> None ->
  try_block w s = (Ok tt, s1) ->
  (forall r1 soup1,
     net w (length (fetched s)) url = Some r1 ->
     parse_xml w (content r1) = Some soup1 ->
     Soup.find_all (py "item") None soup1 = items) ->
  net w (length (fetched s1)) url = Some r2 ->
  error_status r2 = false ->
  parse_xml w (content r2) = Some soup2 ->
  Soup.find_all (py "item") None soup2 = items ->
  fst (fetch_and_process_cve w s1) = Ok tt /\
  db (snd (fetch_and_process_cve w s1)) = db s1 /\
  fetched (snd (fetch_and_process_cve w s1)) = fetched s1 ++ [url] /\
  skipped (snd (fetch_and_process_cve w s1)) = skipped s1 + length items.
Proof.
  intros Hw Hdb Hfirst Hitems1 Hnet2 Hok2 Hsoup2 Hitems2.
  assert (Hknown : Forall (known s1) items).
  { revert Hfirst. unfold try_block, bind at 1, requests_get.
    destruct (net w (length (fetched s)) url) as [r1|] eqn:Hnet1; [|discriminate].
    unfold bind at 1, raise_for_status.
    destruct (error_status r1); [discriminate|]. unfold ret at 1.
    unfold bind at 1, BeautifulSoup.
    destruct (parse_xml w (content r1)) as [soup1|] eqn:Hsoup1; [|discriminate].
    unfold ret at 1.
    rewrite (Hitems1 r1 soup1 eq_refl Hsoup1). intros Hloop.
    exact (loop_stores w items (requested url s) s1 Hw Hdb Hloop). }
  destruct (loop_skips w items (requested url s1)) as (s2 & Hloop & H1 & H2 & H3).
  { intros n. now rewrite Hw. }
  { eapply Forall_impl; [|exact Hknown].
    intros item. now apply known_same_table. }
  assert (Hrun : fetch_and_process_cve w s1 = (Ok tt, s2)).
  { unfold fetch_and_process_cve.
    rewrite (try_block_served w s1 r2 soup2 Hnet2 Hok2 Hsoup2).
    now rewrite Hitems2, Hloop. }
  rewrite Hrun. simpl. unfold skipped in *. simpl in H1, H2, H3.
  repeat split; assumption.
Qed.

Lemma no_faults_one_new_entry : no_faults Example.one_new_entry.
Proof. intros [|n]; reflexivity. Qed.

Lemma second_run_skips_all_witness :
  db (snd (fetch_and_process_cve Example.one_new_entry
             (snd (try_block Example.one_new_entry Example.created)))) =
  Some [Example.flaw_row] /\
  skipped (snd (fetch_and_process_cve Example.one_new_entry
                  (snd (try_block Example.one_new_entry Example.created)))) = 1.
Proof.
  assert (Hdb : db Example.created <> None) by discriminate.
  assert (Hitems : forall r1 soup1,
            net Example.one_new_entry (length (fetched Example.created)) url
              = Some r1 ->
            parse_xml Example.one_new_entry (content r1) = Some soup1 ->
            Soup.find_all (py "item") None soup1 =
            [{| Soup.node_of := Example.flaw; Soup.following := [] |}]).
  { intros r1 soup1 H. injection H as <-.
    intros H. injection H as <-. reflexivity. }
  destruct (second_run_skips_all Example.one_new_entry Example.created
              (snd (try_block Example.one_new_entry Example.created))
              (Example.ok "feed") (Example.rss [Example.flaw])
              [{| Soup.node_of := Example.flaw; Soup.following := [] |}]
              no_faults_one_new_entry Hdb eq_refl Hitems
              eq_refl eq_refl eq_refl eq_refl)
    as (_ & H1 & _ & H2).
  split; [exact H1|exact H2].
Defined.

(** ** What the rows of the table look like *)

Lemma keeps_extract_built J (w : world) (t l p n : str) (soup : list Soup.node) :
  keeps J (built w t l p n) (extract w t l p n soup).
Proof.
  intros s Hs.
  destruct (extract w t l p n soup s) as [[r|e] s'] eqn:Hex; simpl.
  - pose proof Hex as Hf.
    apply extract_fields in Hf as (_ & _ & _ & _ & -> & _).
    split; [exact Hs|]. now exists soup, s.
  - apply extract_raises in Hex as (-> & _). now split.
Qed.

Lemma insert_keeps_rows (P : cve -> Prop) (r : cve) (d : Sqlite.database) :
  P r -> Forall P (Sqlite.rows d) ->
  Forall P (Sqlite.rows (fst (Sqlite.insert r d))).
Proof.
  intros Hr Hd. destruct (insert_rows r d) as [E|[_ E]]; rewrite E; [exact Hd|].
  apply Forall_app. split; [exact Hd|]. now constructor.
Qed.

(** A property of every record [extract] can build for an entry under the
    identifier line 110 gives it holds of every row of the table, run
    after run. *)
Lemma rows_built_by_runs (P : cve -> Prop) (w : world) (s : state) :
  (forall t l p r, built w t l p (cve_number_of t) r -> P r) ->
  ran w s -> Forall P (Sqlite.rows (db s)).
Proof.
  intros HP. induction 1 as [|s _ IH]; [constructor|].
  set (J := fun d => Forall P (Sqlite.rows d)).
  assert (Hentry : forall t l p, keeps J any (process_entry w t l p)).
  { intros t l p. unfold process_entry.
    apply keeps_bind with (V := any); [apply keeps_cve_exists|].
    intros [|] _; [apply keeps_print|].
    apply keeps_bind with (V := any); [apply keeps_requests_get|]. intros r _.
    apply keeps_bind with (V := any); [apply keeps_raise_for_status|]. intros _ _.
    apply keeps_bind with (V := any); [apply keeps_BeautifulSoup|]. intros soup _.
    apply keeps_bind with (V := built w t l p (cve_number_of t));
      [apply keeps_extract_built|].
    intros details Hd.
    apply keeps_bind with (V := any).
    - apply keeps_insert_cve_to_db. intros d. apply insert_keeps_rows.
      exact (HP t l p details Hd).
    - intros [|] _; [apply keeps_print|now apply keeps_ret]. }
  assert (Hitem : forall item, keeps J any (process_item w item)).
  { intros item. unfold process_item.
    apply keeps_bind with (V := any); [apply keeps_text_of|]. intros t _.
    apply keeps_bind with (V := any); [apply keeps_text_of|]. intros l _.
    apply keeps_bind with (V := any); [apply keeps_text_of|]. intros p _.
    apply Hentry. }
  assert (Htry : keeps J any (try_block w)).
  { unfold try_block.
    apply keeps_bind with (V := any); [apply keeps_requests_get|]. intros r _.
    apply keeps_bind with (V := any); [apply keeps_raise_for_status|]. intros _ _.
    apply keeps_bind with (V := any); [apply keeps_BeautifulSoup|]. intros soup _.
    now apply keeps_for_each. }
  assert (Hcreate : J (db (snd (create_cve_table w s)))).
  { apply (keeps_create_cve_table J w); [|exact IH].
    intros d. unfold J. now rewrite create_table_rows. }
  unfold main, bind.
  destruct (create_cve_table w s) as [[b|e] s1]; simpl in *; [|exact Hcreate].
  destruct (Htry s1 Hcreate) as [H1 _].
  unfold fetch_and_process_cve.
  destruct (try_block w s1) as [[[]|[]] s2]; simpl in *; exact H1.
Qed.

Lemma cve_number_shaped (t : str) : identifier_shaped (cve_number_of t).
Proof.
  unfold identifier_shaped, cve_number_of.
  destruct (Re.search cve_pattern t) as [[m g]|] eqn:S; [left|now right].
  apply search_some in S as (pre & rest & tl & _ & Hm & _).
  assert (Hin : In (m, g) (Re.matches cve_pattern rest)) by (rewrite Hm; now left).
  apply in_matches in Hin as [post [_ D]]. now apply denotes_cve in D.
Qed.

(** Every identifier the script ever stores reads as [CVE-], four digits,
    [-], four digits or more, or is the placeholder "N/A": run after run,
    whatever the feed and the pages hold and whatever fails. *)
Theorem stored_identifiers_are_shaped (w : world) (s : state) :
  ran w s ->
  Forall (fun r => identifier_shaped (cve_number r)) (Sqlite.rows (db s)).
Proof.
  apply rows_built_by_runs. intros t l p r [soup [s0 H]].
  apply extract_fields in H as (d & name & _ & _ & _ & ->). simpl.
  apply cve_number_shaped.
Qed.

Lemma ran_twice (w : world) : ran w (snd (main w (snd (main w fresh)))).
Proof. do 2 apply ran_again. apply ran_fresh. Qed.

Lemma stored_identifiers_are_shaped_witness :
  Forall (fun r => identifier_shaped (cve_number r))
         (Sqlite.rows (db (snd (main (Example.notices [])
                                   (snd (main (Example.notices []) fresh)))))).
Proof.
  exact (stored_identifiers_are_shaped (Example.notices []) _
           (ran_twice (Example.notices []))).
Defined.

Lemma strip_idempotent (x : str) : Str.strip (Str.strip x) = Str.strip x.
Proof.
  destruct (strip_split x) as (l & r & Hl & Hr & E).
  rewrite E at 2. symmetry. now apply strip_blanks.
Qed.

Lemma strip_keeps_out (c : ascii) (x : str) : ~ In c x -> ~ In c (Str.strip x).
Proof.
  intros H Hin. apply H.
  destruct (strip_split x) as (l & r & _ & _ & E). rewrite E.
  apply in_or_app. right. apply in_or_app. now left.
Qed.

Lemma replace_removes_newlines (x : str) : ~ In newline (Str.replace newline " " x).
Proof.
  unfold Str.replace. intros H. apply in_map_iff in H as [c [Hc _]].
  destruct (Ascii.eqb c newline) eqn:E; [discriminate|].
  apply Ascii.eqb_neq in E. contradiction.
Qed.

Lemma normalize_tidy (w : world) (t : str) : tidy (normalize w t).
Proof.
  unfold tidy, normalize. split.
  - apply strip_keeps_out, replace_removes_newlines.
  - apply strip_idempotent.
Qed.

(** Every description the script ever stores is in normal form, whatever
    the page held and whatever [html.unescape] returns: no newline in it,
    no blank at either end.  And the severity stored beside it is the one
    lines 129-130 read off that very description. *)
Theorem stored_descriptions_are_tidy (w : world) (s : state) :
  ran w s ->
  Forall (fun r => tidy (cve_description r) /\
                   cve_severity r = severity_of (cve_description r))
         (Sqlite.rows (db s)).
Proof.
  apply rows_built_by_runs. intros t l p r [soup [s0 H]].
  apply extract_fields in H as (d & name & Hd & _ & _ & ->). simpl.
  split; [|reflexivity].
  unfold clean_description_of in Hd.
  destruct (Soup.find (py "td") (Some (py "Description")) soup) as [cell|].
  - unfold bind, text_of in Hd.
    destruct (Soup.find_next_sibling (py "td") cell); [|discriminate].
    unfold ret in Hd. injection Hd as <-. apply normalize_tidy.
  - unfold ret in Hd. injection Hd as <-.
    split; [|reflexivity].
    intros Hin. simpl in Hin.
    repeat (destruct Hin as [Hin|Hin]; [discriminate Hin|]). exact Hin.
Qed.

Lemma stored_descriptions_are_tidy_witness :
  Forall (fun r => tidy (cve_description r) /\
                   cve_severity r = severity_of (cve_description r))
         (Sqlite.rows (db (snd (main Example.both_pages_up
                                   (snd (main Example.both_pages_up fresh)))))).
Proof.
  exact (stored_descriptions_are_tidy Example.both_pages_up _
           (ran_twice Example.both_pages_up)).
Defined.

(** ** From the feed to the table *)

Lemma subseq_app {A} (a b c d : list A) :
  subseq a b -> subseq c d -> subseq (a ++ c) (b ++ d).
Proof.
  intros Hab Hcd. induction Hab; simpl; [exact Hcd| |]; now constructor.
Qed.

Lemma loop_stores_feed_entries (w : world) (items : list Soup.element) (s : state) :
  exists added,
    Sqlite.rows (db (snd (for_each (process_item w) items s))) =
      Sqlite.rows (db s) ++ added /\
    subseq (map cve_number added) (numbers_of items).
Proof.
  revert s; induction items as [|item items IH]; intros s; simpl.
  - exists []. split; [now rewrite app_nil_r|constructor].
  - assert (Hstep : exists a0,
              Sqlite.rows (db (snd (process_item w item s))) =
                Sqlite.rows (db s) ++ a0 /\
              subseq (map cve_number a0)
                     (match entry_of item with
                      | Some e => [cve_number_of (title e)]
                      | None => []
                      end)).
    { destruct (process_item_effect w item s) as [[He ->]|[e [He H]]];
        rewrite He.
      - exists []. split; [now rewrite app_nil_r|constructor].
      - destruct H as [_ Hdb _ _|r ls _ Hnum _ Hdb _ _|ls _ Hdb _ _].
        + exists []. rewrite Hdb, app_nil_r. split; [reflexivity|apply subseq_nil].
        + exists [r]. rewrite Hdb. simpl. rewrite Hnum.
          split; [reflexivity|repeat constructor].
        + exists []. rewrite Hdb, app_nil_r. split; [reflexivity|apply subseq_nil]. }
    destruct Hstep as (a0 & Ha0 & Hsub0). unfold bind.
    destruct (process_item w item s) as [[[]|e] s1]; simpl in *.
    + destruct (IH s1) as (a1 & Ha1 & Hsub1).
      exists (a0 ++ a1). rewrite Ha1, Ha0, app_assoc, map_app.
      split; [reflexivity|]. now apply subseq_app.
    + exists a0. split; [exact Ha0|].
      rewrite <- (app_nil_r (map cve_number a0)).
      apply subseq_app; [exact Hsub0|apply subseq_nil].
Qed.

(** What a run stores.  A run only appends rows, and only for items of the
    feed it was served: the identifiers of the rows added are identifiers
    derived from item titles, in the order of the feed, at most one row
    for each item.  Nothing is added when the request for the feed fails
    ([requests.get] raises, or the answer has an error status) or when the
    parser rejects the answer. *)
Theorem run_stores_feed_entries (w : world) (s : state) :
  exists added,
    Sqlite.rows (db (snd (fetch_and_process_cve w s))) =
      Sqlite.rows (db s) ++ added /\
    match net w (length (fetched s)) url with
    | Some r =>
        if error_status r then added = []
        else match parse_xml w (content r) with
             | Some soup =>
                 subseq (map cve_number added)
                        (numbers_of (Soup.find_all (py "item") None soup))
             | None => added = []
             end
    | None => added = []
    end.
Proof.
  assert (H : exists added,
            Sqlite.rows (db (snd (fetch_and_process_cve w s))) =
              Sqlite.rows (db s) ++ added /\
            match served_items w s with
            | Some items => subseq (map cve_number added) (numbers_of items)
            | None => added = []
            end).
  { rewrite run_db.
    destruct (served_items w s) as [items|] eqn:Hserved.
    - rewrite (try_block_items w s items Hserved).
      exact (loop_stores_feed_entries w items (requested url s)).
    - rewrite (try_block_not_served w s Hserved).
      exists []. simpl. now rewrite app_nil_r. }
  destruct H as (added & Hadded & H).
  exists added. split; [exact Hadded|].
  unfold served_items in H.
  destruct (net w (length (fetched s)) url) as [r|]; [|exact H].
  destruct (error_status r); [exact H|].
  destruct (parse_xml w (content r)); exact H.
Qed.
